(** * Cosmos [Select]: option normalisation, value resolution, change events
      and the scroll/menu controller

    A shallow embedding of [core/components/atoms/select] (the object
    [cosmosToReactSelect], [oneOrMore] and the class [Select]) together with
    the properties its specification states about them, followed by the
    [control] styles of the select and the class [Alert] of
    [core/components/atoms/alert] with properties read off their code. *)

From Stdlib Require Import ZArith Lia.
From stdpp Require Import base option list strings gmap.

Open Scope string_scope.

(** ** JavaScript values that occur as option keys *)

Module Js.

(** Primitive values, [undefined] and [null].  Numbers are the integral ones:
    option keys are identifiers, so [NaN] and the signed zeros do not occur. *)
Inductive val : Type :=
| undefined
| null
| str (s : string)
| num (z : Z)
| boolean (b : bool).

#[export] Instance val_eq_dec : EqDecision val.
Proof. solve_decision. Defined.

(** [a === b] on the values above. *)
Definition strict_eq (a b : val) : bool := bool_decide (a = b).

(** [a || b] on optional strings: the empty string and [undefined] are falsy. *)
Definition or_string (a b : option string) : option string :=
  match a with
  | Some s => if bool_decide (s = EmptyString) then b else a
  | None => b
  end.

(** Truthiness of an optional boolean ([undefined] is falsy). *)
Definition truthy (b : option bool) : bool := default false b.

(** An optional boolean as a value. *)
Definition ofBool (b : option bool) : val :=
  match b with
  | Some b => boolean b
  | None => undefined
  end.

(** The UTF-16 code units one byte of a UTF-8 encoded string stands for:
    none for a continuation byte, two for the lead byte of a four-byte
    sequence (a surrogate pair), one otherwise. *)
Definition unitsOfByte (a : Ascii.ascii) : nat :=
  let n := Ascii.nat_of_ascii a in
  if Nat.ltb n 128 then 1
  else if Nat.ltb n 192 then 0
  else if Nat.ltb n 240 then 1
  else 2.

(** [s.length]: strings are kept UTF-8 encoded, JavaScript counts UTF-16
    code units. *)
Fixpoint length (s : string) : nat :=
  match s with
  | EmptyString => 0
  | String a rest => unitsOfByte a + length rest
  end.

End Js.

(** ** Option records *)

(** Modelled from the spec: the declaration [ISelectOptions] of
    [./interfaces] is missing from the sources; the fields are those
    the destructuring pattern of [cosmosToReactSelect.options] names, and
    [value] and [rest] stand for the [...otherProperties] it carries over:
    [rest] holds the caller's own properties other than [value] and the five
    names the pattern binds, with primitive values. *)
Module Caller.

Unset Elimination Schemes.
Inductive Option : Type := mk {
  items : option (list Option);
  groupName : option string;
  disabled : option bool;
  label : option string;
  text : option string;
  value : Js.val;
  rest : gmap string Js.val
}.
Set Elimination Schemes.

(** A leaf choice. *)
Definition leaf (v : Js.val) (l : string) : Option :=
  mk None None None (Some l) None v ∅.

(** A group header with its nested choices. *)
Definition group (g : string) (l : list Option) : Option :=
  mk (Some l) (Some g) None None None Js.undefined ∅.

Section Induction.
Variable P : Option -> Prop.
Hypothesis P_leaf : forall g d l t v r, P (mk None g d l t v r).
Hypothesis P_group :
  forall its g d l t v r, Forall P its -> P (mk (Some its) g d l t v r).

Fixpoint Option_ind (c : Option) : P c :=
  match c with
  | mk None g d l t v r => P_leaf g d l t v r
  | mk (Some its) g d l t v r =>
      P_group its g d l t v r
        ((fix all (l0 : list Option) : Forall P l0 :=
            match l0 with
            | [] => @List.Forall_nil _ P
            | c0 :: l1 => @List.Forall_cons _ P c0 l1 (Option_ind c0) (all l1)
            end) its)
  end.
End Induction.

End Caller.

(** The record react-select works with. *)
Module Canon.

Unset Elimination Schemes.
Inductive Option : Type := mk {
  isDisabled : Js.val;
  label : option string;
  options : option (list Option);
  value : Js.val;
  rest : gmap string Js.val
}.
Set Elimination Schemes.

Definition leaf (v : Js.val) (l : string) : Option :=
  mk Js.undefined (Some l) None v ∅.

Definition group (g : string) (l : list Option) : Option :=
  mk Js.undefined (Some g) (Some l) Js.undefined ∅.

End Canon.

(** ** Raw and resolved values *)

(** What a caller may hand in as [value]: a primitive (or [null] or
    [undefined]), an array, or a whole option object (async mode). *)
Unset Elimination Schemes.
Inductive Raw : Type :=
| RVal (v : Js.val)
| RArray (l : list Raw)
| RObject (o : Canon.Option).

(** What [cosmosToReactSelect.value] returns: [null], [undefined] (the result
    of a failed [find]), one option record, or an array of results. *)
Inductive Resolved : Type :=
| ResNull
| ResUndefined
| ResOption (o : Canon.Option)
| ResArray (l : list Resolved).
Set Elimination Schemes.

(** ** Measures of option trees *)

(** An option tree reduced to its nesting and the fields normalisation
    carries over. *)
Unset Elimination Schemes.
Inductive Shape : Type :=
| ShLeaf (v : Js.val) (r : gmap string Js.val)
| ShGroup (v : Js.val) (r : gmap string Js.val) (l : list Shape).
Set Elimination Schemes.

Definition sum_list (l : list nat) : nat := foldr Nat.add 0 l.
Definition max_list (l : list nat) : nat := foldr Nat.max 0 l.

Module CallerTree.

(** Number of leaves (nodes without [items]) below a node. *)
Fixpoint leafCount (c : Caller.Option) : nat :=
  match Caller.items c with
  | None => 1
  | Some its => sum_list (map leafCount its)
  end.

(** Number of nodes, groups included. *)
Fixpoint nodeCount (c : Caller.Option) : nat :=
  match Caller.items c with
  | None => 1
  | Some its => S (sum_list (map nodeCount its))
  end.

(** Levels of nesting at and below a node. *)
Fixpoint depth (c : Caller.Option) : nat :=
  match Caller.items c with
  | None => 1
  | Some its => S (max_list (map depth its))
  end.

(** The [value]s of the leaves, left to right. *)
Fixpoint leafValues (c : Caller.Option) : list Js.val :=
  match Caller.items c with
  | None => [Caller.value c]
  | Some its => concat (map leafValues its)
  end.

(** The tree with the computed fields forgotten. *)
Fixpoint shape (c : Caller.Option) : Shape :=
  match Caller.items c with
  | None => ShLeaf (Caller.value c) (Caller.rest c)
  | Some its => ShGroup (Caller.value c) (Caller.rest c) (map shape its)
  end.

(** No node at or below this one has an [options] property of its own. *)
Fixpoint withoutOwnOptions (c : Caller.Option) : bool :=
  match Caller.rest c !! "options" with
  | Some _ => false
  | None =>
      match Caller.items c with
      | None => true
      | Some its => forallb withoutOwnOptions its
      end
  end.

(** The same measures for a whole option list. *)
Definition leaves (tree : list Caller.Option) : nat :=
  sum_list (map leafCount tree).
Definition nodes (tree : list Caller.Option) : nat :=
  sum_list (map nodeCount tree).
Definition height (tree : list Caller.Option) : nat :=
  max_list (map depth tree).
Definition leafSequence (tree : list Caller.Option) : list Js.val :=
  concat (map leafValues tree).

End CallerTree.

Module CanonTree.

Fixpoint leafCount (o : Canon.Option) : nat :=
  match Canon.options o with
  | None => 1
  | Some subs => sum_list (map leafCount subs)
  end.

Fixpoint nodeCount (o : Canon.Option) : nat :=
  match Canon.options o with
  | None => 1
  | Some subs => S (sum_list (map nodeCount subs))
  end.

Fixpoint depth (o : Canon.Option) : nat :=
  match Canon.options o with
  | None => 1
  | Some subs => S (max_list (map depth subs))
  end.

Fixpoint leafValues (o : Canon.Option) : list Js.val :=
  match Canon.options o with
  | None => [Canon.value o]
  | Some subs => concat (map leafValues subs)
  end.

Fixpoint shape (o : Canon.Option) : Shape :=
  match Canon.options o with
  | None => ShLeaf (Canon.value o) (Canon.rest o)
  | Some subs => ShGroup (Canon.value o) (Canon.rest o) (map shape subs)
  end.

(** The leaf records at any depth below a node, left to right. *)
Fixpoint leafNodes (o : Canon.Option) : list Canon.Option :=
  match Canon.options o with
  | None => [o]
  | Some subs => concat (map leafNodes subs)
  end.

Definition leaves (tree : list Canon.Option) : nat :=
  sum_list (map leafCount tree).
Definition nodes (tree : list Canon.Option) : nat :=
  sum_list (map nodeCount tree).
Definition height (tree : list Canon.Option) : nat :=
  max_list (map depth tree).
Definition leafSequence (tree : list Canon.Option) : list Js.val :=
  concat (map leafValues tree).

(** The entries directly inside the top-level groups, in the order the two
    nested [forEach] loops of the resolver visit them. *)
Definition nestedOptions (tree : list Canon.Option) : list Canon.Option :=
  concat (map (fun o => default [] (Canon.options o)) tree).

(** Every entry the resolver compares with the raw value. *)
Definition searched (tree : list Canon.Option) : list Canon.Option :=
  nestedOptions tree ++ tree.

End CanonTree.

(** ** [cosmosToReactSelect.options] *)

Module cosmosToReactSelect.

(** The arrow function mapped over the caller's array:
    [({ items, groupName, disabled, label, text, ...otherProperties }) =>
     ({ isDisabled: disabled, label: groupName || label || text,
        options: items ? cosmosToReactSelect.options(items) : undefined,
        ...otherProperties })].
    The spread comes last, so an [isDisabled] or [options] property of the
    caller's own replaces the computed one; [label] is bound by the pattern and
    cannot be among them.  A replaced [options] is one of the primitive values
    [rest] holds, never an array, so the entry then has no nested list. *)
Fixpoint entry (c : Caller.Option) : Canon.Option :=
  match c with
  | Caller.mk items groupName disabled label text value rest =>
      Canon.mk
        (match rest !! "isDisabled" with
         | Some own => own
         | None => Js.ofBool disabled
         end)
        (Js.or_string (Js.or_string groupName label) text)
        (match rest !! "options" with
         | Some own => None
         | None =>
             match items with
             | Some its => Some (map entry its)
             | None => None
             end
         end)
        value
        rest
  end.

Definition options (cosmosOptions : list Caller.Option) : list Canon.Option :=
  map entry cosmosOptions.

(** *** [cosmosToReactSelect.value] *)

(** [const defaultGetOptionValue = (option) => option.value]. *)
Definition defaultGetOptionValue (option : Canon.Option) : Js.val :=
  Canon.value option.

(** [const matchValue = (option) => getOptionValue(option) === valueProp].
    Keys are primitives, so an object or an array on the right never
    compares equal. *)
Definition matchValue (getOptionValue : Canon.Option -> Js.val)
    (valueProp : Raw) (option : Canon.Option) : bool :=
  match valueProp with
  | RVal v => Js.strict_eq (getOptionValue option) v
  | RArray _ | RObject _ => false
  end.

(** The inner [option.options.forEach]: every matching [subOption]
    overwrites [valueFound]. *)
Definition scanSubOptions (matches : Canon.Option -> bool)
    (valueFound : option Canon.Option) (subOptions : list Canon.Option)
    : option Canon.Option :=
  fold_left
    (fun found subOption => if matches subOption then Some subOption else found)
    subOptions valueFound.

(** The outer [options.forEach], started from [valueFound = null]; only
    entries carrying an [options] array are entered. *)
Definition scanGroups (matches : Canon.Option -> bool)
    (options : list Canon.Option) : option Canon.Option :=
  fold_left
    (fun found option =>
       match Canon.options option with
       | Some subOptions => scanSubOptions matches found subOptions
       | None => found
       end)
    options None.

(** Lines 351-369: the part of [value] after the [null] and array tests. *)
Definition scalar (getOptionValue : Canon.Option -> Js.val)
    (valueProp : Raw) (options : list Canon.Option) : Resolved :=
  match scanGroups (matchValue getOptionValue valueProp) options with
  | Some valueFound => ResOption valueFound
  | None =>
      match find (matchValue getOptionValue valueProp) options with
      | Some o => ResOption o
      | None => ResUndefined
      end
  end.

(** [value] with the extractor already defaulted. *)
Fixpoint valueWith (getOptionValue : Canon.Option -> Js.val)
    (valueProp : Raw) (options : list Canon.Option) : Resolved :=
  match valueProp with
  | RVal Js.null | RVal Js.undefined => ResNull
  | RArray l =>
      ResArray (map (fun item => valueWith getOptionValue item options) l)
  | _ => scalar getOptionValue valueProp options
  end.

(** [value: (valueProp, options, getOptionValue = defaultGetOptionValue)]. *)
Definition value (valueProp : Raw) (options : list Canon.Option)
    (getOptionValue : option (Canon.Option -> Js.val)) : Resolved :=
  valueWith (default defaultGetOptionValue getOptionValue) valueProp options.

End cosmosToReactSelect.

(** ** [oneOrMore] and the change event *)

(** What react-select hands to its [onChange]: [null], one record, or an
    array of records. *)
Inductive Selection : Type :=
| SelNull
| SelOne (o : Canon.Option)
| SelMany (l : list Canon.Option).

(** The [value] placed in the emitted event. *)
Inductive NewValue : Type :=
| NvNull
| NvKey (k : Js.val)
| NvKeys (ks : list Js.val)
| NvRaw (s : Selection).

(** [oneOrMore(options, getOptionValue = defaultGetOptionValue)]. *)
Definition oneOrMore (options : Selection)
    (getOptionValue : option (Canon.Option -> Js.val)) : NewValue :=
  let getOptionValue :=
    default cosmosToReactSelect.defaultGetOptionValue getOptionValue in
  match options with
  | SelNull => NvNull
  | SelMany l => NvKeys (map getOptionValue l)
  | SelOne o => NvKey (getOptionValue o)
  end.

(** A caller-supplied function or object the component only tests for
    presence and hands on. *)
Inductive Handle : Type := handle (id : nat).

Module ChangeEvent.
Record Target : Type := mkTarget { name : option string; value : NewValue }.
Record t : Type := mk { target : Target }.
End ChangeEvent.

(** One invocation of a caller's callback with its argument. *)
Record Call : Type := mkCall { callee : Handle; argument : ChangeEvent.t }.

(** ** Properties of the component *)

Module ISelectProps.
Record t : Type := mk {
  id : option string;
  name : option string;
  options : list Caller.Option;
  value : Raw;
  defaultValue : Raw;
  hasError : option bool;
  onChange : option Handle;
  placeholder : option string;
  async : option bool;
  disabled : option bool;
  searchable : option bool;
  multiple : option bool;
  loading : option bool;
  customOptionRenderer : option Handle;
  customValueRenderer : option Handle;
  loadOptions : option Handle;
  getOptionValue : option (Canon.Option -> Js.val);
  noOptionsMessage : option (Handle + string);
  defaultOptions : option (list Caller.Option + bool);
  style : option Handle;
  autoFocus : option bool;
  cacheOptions : option bool;
  defaultMenuOpen : option bool;
  inputValue : option string
}.

(** [Select.defaultProps]: [options: []], [placeholder: ''],
    [searchable: false]; everything else is left undefined. *)
Definition defaults : t :=
  mk None None [] (RVal Js.undefined) (RVal Js.undefined) None None (Some EmptyString)
     None None (Some false) None None None None None None None None None
     None None None None.
End ISelectProps.

(** ** The class [Select] *)

Module Select.

(** [componentOverrides], as far as [render] changes it: [None] is the stock
    component, [Some h] the one built by [optionRenderer(h)] or
    [valueRenderer(h)]. *)
Record Overrides : Type := mkOverrides {
  Option : option Handle;
  SingleValue : option Handle
}.

(** A mounted instance: its props, its state [{ menuIsOpen }], the overrides
    it keeps between renders, how often [forceUpdate] ran, and whether
    [handleScroll] is registered on [document]. *)
Record Instance : Type := mkInstance {
  props : ISelectProps.t;
  menuIsOpen : bool;
  componentOverrides : Overrides;
  forceUpdates : nat;
  scrollListener : bool
}.

(** [constructor(props)]: [this.state = { menuIsOpen: props.defaultMenuOpen || false }]. *)
Definition constructor (props : ISelectProps.t) : Instance :=
  mkInstance props (Js.truthy (ISelectProps.defaultMenuOpen props))
    (mkOverrides None None) 0 false.

Definition forceUpdate (this : Instance) : Instance :=
  mkInstance (props this) (menuIsOpen this) (componentOverrides this)
    (S (forceUpdates this)) (scrollListener this).

Definition componentDidMount (this : Instance) : Instance :=
  let this :=
    mkInstance (props this) (menuIsOpen this) (componentOverrides this)
      (forceUpdates this) true in
  if Js.truthy (ISelectProps.defaultMenuOpen (props this))
  then forceUpdate this
  else this.

Definition componentWillUnmount (this : Instance) : Instance :=
  mkInstance (props this) (menuIsOpen this) (componentOverrides this)
    (forceUpdates this) false.

(** [handleScroll()]: [if (this.state.menuIsOpen) { this.forceUpdate() }]. *)
Definition handleScroll (this : Instance) : Instance :=
  if menuIsOpen this then forceUpdate this else this.

(** [updateMenuState(newState)] returns the callback
    [() => this.setState({ menuIsOpen: newState })].  Signals are handled one
    after the other, so the new state is in place before the next one
    arrives. *)
Definition updateMenuState (newState : bool) : Instance -> Instance :=
  fun this =>
    mkInstance (props this) newState (componentOverrides this)
      (forceUpdates this) (scrollListener this).

(** What reaches the instance from outside: the widget's [onMenuOpen] and
    [onMenuClose], and a scroll event on the document. *)
Inductive Signal : Type := MenuOpen | MenuClose | Scroll.

(** A scroll event runs [handleScroll] only while it is registered. *)
Definition deliver (this : Instance) (s : Signal) : Instance :=
  match s with
  | MenuOpen => updateMenuState true this
  | MenuClose => updateMenuState false this
  | Scroll => if scrollListener this then handleScroll this else this
  end.

Definition run (this : Instance) (signals : list Signal) : Instance :=
  fold_left deliver signals this.

(** The states the instance goes through, one per signal, each taken just
    before that signal is delivered. *)
Fixpoint statesBefore (this : Instance) (signals : list Signal)
    : list (Instance * Signal) :=
  match signals with
  | [] => []
  | s :: rest => (this, s) :: statesBefore (deliver this s) rest
  end.

(** Does delivering [s] in state [this] call [forceUpdate]? *)
Definition repositions (this : Instance) (s : Signal) : bool :=
  bool_decide (forceUpdates (deliver this s) = S (forceUpdates this)).

(** *** [render] *)

Inductive Provider : Type := AsyncSelect | ReactSelect.

(** The [value] attribute: the caller's own in async mode, the resolver's
    result otherwise. *)
Inductive WidgetValue : Type :=
| Passed (raw : Raw)
| Computed (r : Resolved).

(** The normalised [noOptionsMessage]: the caller's function, or a function
    returning a fixed string. *)
Inductive Message : Type :=
| MsgFunction (h : Handle)
| MsgConstant (s : string).

(** The attributes [render] puts on [<SelectProvider>]; [isClearable],
    [menuPortalTarget] and [theme] are constants and left out, [styles]
    depends on [props.hasError] only. *)
Record Attributes : Type := mkAttributes {
  onChange : Selection -> list Call;
  isDisabled : option bool;
  isMulti : option bool;
  isSearchable : option bool;
  isLoading : option bool;
  onMenuOpen : Instance -> Instance;
  onMenuClose : Instance -> Instance;
  menuIsOpenAttr : option bool;
  defaultValue : Raw;
  getOptionValue : option (Canon.Option -> Js.val);
  placeholder : option string;
  options : list Canon.Option;
  loadOptions : option Handle;
  components : Overrides;
  noOptionsMessage : Message;
  defaultOptions : option (list Canon.Option);
  autoFocus : option bool;
  name : option string;
  value : WidgetValue;
  styles : option bool;
  key : Js.val;
  id : option string
}.

Inductive Rendered : Type :=
| SimpleSelect (props : ISelectProps.t)
| Wrapper (style : option Handle) (SelectProvider : Provider) (attrs : Attributes)
| TypeError.

(** [a || b] on optional booleans. *)
Definition or_bool (a b : option bool) : option bool :=
  if Js.truthy a then a else b.

(** The test that opens [render]. *)
Definition needsFullWidget (props : ISelectProps.t) : bool :=
  Js.truthy (ISelectProps.async props)
  || Js.truthy (ISelectProps.searchable props)
  || Js.truthy (ISelectProps.multiple props)
  || bool_decide (is_Some (ISelectProps.customOptionRenderer props))
  || bool_decide (is_Some (ISelectProps.customValueRenderer props))
  || bool_decide (is_Some (ISelectProps.getOptionValue props)).

(** [const value = props.async ? props.value
                 : cosmosToReactSelect.value(props.value, options, props.getOptionValue)]. *)
Definition renderedValue (props : ISelectProps.t) (options : list Canon.Option)
    : WidgetValue :=
  if Js.truthy (ISelectProps.async props)
  then Passed (ISelectProps.value props)
  else Computed (cosmosToReactSelect.value (ISelectProps.value props) options
                   (ISelectProps.getOptionValue props)).

(** [const searchable = props.async || props.searchable]. *)
Definition renderedSearchable (props : ISelectProps.t) : option bool :=
  or_bool (ISelectProps.async props) (ISelectProps.searchable props).

Definition renderedNoOptionsMessage (props : ISelectProps.t) : Message :=
  match ISelectProps.noOptionsMessage props with
  | Some (inl f) => MsgFunction f
  | Some (inr s) => if bool_decide (s = EmptyString) then MsgConstant "No options" else MsgConstant s
  | None => MsgConstant "No options"
  end.

(** The [onChange] closure of [render]; the result lists the calls it makes
    to [props.onChange]. *)
Definition renderedOnChange (props : ISelectProps.t) (options : Selection)
    : list Call :=
  let newValue :=
    if Js.truthy (ISelectProps.async props)
    then NvRaw options
    else oneOrMore options (ISelectProps.getOptionValue props) in
  match ISelectProps.onChange props with
  | Some f =>
      [mkCall f (ChangeEvent.mk
                   (ChangeEvent.mkTarget (ISelectProps.name props) newValue))]
  | None => []
  end.

(** [x.length] of an option object: present only if the caller put it there. *)
Definition objectLength (o : Canon.Option) : Js.val :=
  default Js.undefined (Canon.rest o !! "length").

(** [key={value ? value.length : 0}]. *)
Definition renderedKey (value : WidgetValue) : Js.val :=
  match value with
  | Passed (RVal (Js.str s)) =>
      if bool_decide (s = EmptyString) then Js.num 0 else Js.num (Z.of_nat (Js.length s))
  | Passed (RVal (Js.num z)) => if bool_decide (z = 0%Z) then Js.num 0 else Js.undefined
  | Passed (RVal (Js.boolean b)) => if b then Js.undefined else Js.num 0
  | Passed (RVal _) => Js.num 0
  | Passed (RArray l) => Js.num (Z.of_nat (length l))
  | Passed (RObject o) => objectLength o
  | Computed (ResOption o) => objectLength o
  | Computed (ResArray l) => Js.num (Z.of_nat (length l))
  | Computed _ => Js.num 0
  end.

(** [render()], with the [formFieldId] of the surrounding form field's
    context.  The second component is the instance afterwards: [render] writes
    to [this.componentOverrides]. *)
Definition render (this : Instance) (formFieldId : option string)
    : Rendered * Instance :=
  let props := props this in
  if negb (needsFullWidget props) then (SimpleSelect props, this) else
  let options := cosmosToReactSelect.options (ISelectProps.options props) in
  match
    match ISelectProps.defaultOptions props with
    | Some (inl l) => Some (Some (cosmosToReactSelect.options l))
    | Some (inr true) => None
    | Some (inr false) | None => Some None
    end
  with
  | None => (TypeError, this)
  | Some defaultOptions =>
      let overrides :=
        mkOverrides
          (match ISelectProps.customOptionRenderer props with
           | Some r => Some r
           | None => Option (componentOverrides this)
           end)
          (match ISelectProps.customValueRenderer props with
           | Some r => Some r
           | None => SingleValue (componentOverrides this)
           end) in
      let this' :=
        mkInstance props (menuIsOpen this) overrides (forceUpdates this)
          (scrollListener this) in
      let value := renderedValue props options in
      let SelectProvider :=
        if Js.truthy (ISelectProps.async props) then AsyncSelect else ReactSelect in
      (Wrapper (ISelectProps.style props) SelectProvider
         (mkAttributes
            (renderedOnChange props)
            (ISelectProps.disabled props)
            (ISelectProps.multiple props)
            (renderedSearchable props)
            (ISelectProps.loading props)
            (updateMenuState true)
            (updateMenuState false)
            (ISelectProps.defaultMenuOpen props)
            (ISelectProps.defaultValue props)
            (ISelectProps.getOptionValue props)
            (ISelectProps.placeholder props)
            options
            (ISelectProps.loadOptions props)
            overrides
            (renderedNoOptionsMessage props)
            defaultOptions
            (ISelectProps.autoFocus props)
            (ISelectProps.name props)
            value
            (ISelectProps.hasError props)
            (renderedKey value)
            (Js.or_string (ISelectProps.id props) formFieldId)),
       this')
  end.

End Select.

(** The last entry of a list that satisfies a test. *)
Definition lastMatch (matches : Canon.Option -> bool) (l : list Canon.Option)
    : option Canon.Option :=
  last (List.filter matches l).

(** ** Multiplicity of values *)

Inductive Multiplicity : Type := NoSelection | Single | Sequence.

Definition multiplicity (r : Resolved) : Multiplicity :=
  match r with
  | ResNull => NoSelection
  | ResArray _ => Sequence
  | ResUndefined | ResOption _ => Single
  end.

(** The runtime shape [cosmosToReactSelect.value] tests for. *)
Definition rawShape (raw : Raw) : Multiplicity :=
  match raw with
  | RVal Js.null | RVal Js.undefined => NoSelection
  | RArray _ => Sequence
  | RVal _ | RObject _ => Single
  end.

(** Does a multiplicity fit the declared [multiple] flag? *)
Definition fitsMode (multiple : option bool) (m : Multiplicity) : bool :=
  match m with
  | NoSelection => true
  | Single => negb (Js.truthy multiple)
  | Sequence => Js.truthy multiple
  end.

Definition widgetMultiplicity (v : Select.WidgetValue) : Multiplicity :=
  match v with
  | Select.Passed raw => rawShape raw
  | Select.Computed r => multiplicity r
  end.

(** The attributes of a rendering, when it is the full widget. *)
Definition attributesOf (r : Select.Rendered) : option Select.Attributes :=
  match r with
  | Select.Wrapper _ _ attrs => Some attrs
  | Select.SimpleSelect _ | Select.TypeError => None
  end.

(** ** Updating single props *)

Definition withCacheOptions (c : option bool) (p : ISelectProps.t) : ISelectProps.t :=
  ISelectProps.mk
    (ISelectProps.id p) (ISelectProps.name p) (ISelectProps.options p)
    (ISelectProps.value p) (ISelectProps.defaultValue p) (ISelectProps.hasError p)
    (ISelectProps.onChange p) (ISelectProps.placeholder p) (ISelectProps.async p)
    (ISelectProps.disabled p) (ISelectProps.searchable p) (ISelectProps.multiple p)
    (ISelectProps.loading p) (ISelectProps.customOptionRenderer p)
    (ISelectProps.customValueRenderer p) (ISelectProps.loadOptions p)
    (ISelectProps.getOptionValue p) (ISelectProps.noOptionsMessage p)
    (ISelectProps.defaultOptions p) (ISelectProps.style p) (ISelectProps.autoFocus p)
    c (ISelectProps.defaultMenuOpen p) (ISelectProps.inputValue p).

Definition withProps (p : ISelectProps.t) (this : Select.Instance) : Select.Instance :=
  Select.mkInstance p (Select.menuIsOpen this) (Select.componentOverrides this)
    (Select.forceUpdates this) (Select.scrollListener this).

(** ** The async widget's loading *)

(** Modelled from the spec: react-select's [AsyncSelect] is a dependency and
    not part of the sources.  Section 4.4 gives its caching policy: with
    caching enabled, results retrieved for a query text are reused; without
    it every query goes to the loader. *)
Module AsyncSelectModel.

(** The query texts that reach [loadOptions], for the texts typed in order. *)
Fixpoint loaderCalls (cacheOptions : bool) (cache : gset string)
    (queries : list string) : list string :=
  match queries with
  | [] => []
  | q :: rest =>
      if cacheOptions && bool_decide (q ∈ cache)
      then loaderCalls cacheOptions cache rest
      else q :: loaderCalls cacheOptions
                  (if cacheOptions then {[q]} ∪ cache else cache) rest
  end.

(** The [cacheOptions] attribute the widget reads: [render] puts none on
    [<SelectProvider>], so it is [undefined] whatever the attributes are. *)
Definition cacheOptionsAttribute (attrs : Select.Attributes) : option bool := None.

(** Loader invocations of a rendering. *)
Definition loads (r : Select.Rendered) (queries : list string) : list string :=
  match r with
  | Select.Wrapper _ Select.AsyncSelect attrs =>
      loaderCalls (Js.truthy (cacheOptionsAttribute attrs)) ∅ queries
  | _ => []
  end.

End AsyncSelectModel.

(** ** Sample option lists *)

(** The list of the specification's scenarios:
    [[{value:"a",label:"A"},{groupName:"G",items:[{value:"b",label:"B"}]}]]. *)
Definition scenarioOptions : list Caller.Option :=
  [Caller.leaf (Js.str "a") "A";
   Caller.group "G" [Caller.leaf (Js.str "b") "B"]].

Definition scenarioTree : list Canon.Option :=
  cosmosToReactSelect.options scenarioOptions.

(** Two groups whose leaves share the key ["a"]. *)
Definition twoGroups : list Canon.Option :=
  [Canon.group "G1" [Canon.leaf (Js.str "a") "first"];
   Canon.group "G2" [Canon.leaf (Js.str "a") "second"]].

(** A top-level leaf and a nested leaf with the same key ["b"]. *)
Definition collidingTree : list Canon.Option :=
  [Canon.leaf (Js.str "b") "top";
   Canon.group "G" [Canon.leaf (Js.str "b") "B"]].

(** A group that carries an [options] property of its own:
    [[{groupName:"G", items:[{value:"b",label:"B"}], options:null}]]. *)
Definition overriddenGroup : list Caller.Option :=
  [Caller.mk (Some [Caller.leaf (Js.str "b") "B"]) (Some "G") None None None
     Js.undefined {["options" := Js.null]}].


(** Two top-level leaves with the same key ["a"]. *)
Definition duplicateTree : list Canon.Option :=
  [Canon.leaf (Js.str "a") "A"; Canon.leaf (Js.str "a") "B"].

(** ** Sample props *)

(** Single mode ([multiple: false]), searchable, with an array as [value]. *)
Definition singleModeArrayProps : ISelectProps.t :=
  ISelectProps.mk None (Some "field") scenarioOptions
    (RArray [RVal (Js.str "a")]) (RVal Js.undefined) None (Some (handle 0))
    (Some EmptyString) None None (Some true) (Some false) None None None None None None
    None None None None None None.

(** Multi mode ([multiple: true]) with a scalar as [value]. *)
Definition multiModeScalarProps : ISelectProps.t :=
  ISelectProps.mk None (Some "field") scenarioOptions
    (RVal (Js.str "a")) (RVal Js.undefined) None (Some (handle 0))
    (Some EmptyString) None None (Some false) (Some true) None None None None None None
    None None None None None None.

(** Async mode with [cacheOptions: true], a loader and a change handler. *)
Definition asyncCachingProps : ISelectProps.t :=
  ISelectProps.mk None (Some "field") []
    (RVal Js.undefined) (RVal Js.undefined) None (Some (handle 0))
    (Some EmptyString) (Some true) None (Some false) None None None None
    (Some (handle 1)) None None None None None (Some true) None None.

(** ** Counting scroll events *)

(** The scroll events of a run that arrive while the menu is open. *)
Definition scrollsWhileOpen (this : Select.Instance) (signals : list Select.Signal)
    : nat :=
  length
    (List.filter
       (fun '(state, s) =>
          match s with
          | Select.Scroll => Select.menuIsOpen state
          | Select.MenuOpen | Select.MenuClose => false
          end)
       (Select.statesBefore this signals)).

(** ** The caller's side of the search *)



(** The menu state a sequence of signals leaves behind: the last
    [onMenuOpen] or [onMenuClose] decides, scroll events do not count. *)
Definition menuAfter (initial : bool) (signals : list Select.Signal) : bool :=
  fold_left
    (fun isOpen s =>
       match s with
       | Select.MenuOpen => true
       | Select.MenuClose => false
       | Select.Scroll => isOpen
       end)
    signals initial.

(** ** [cosmosToReactSelect.styles]: the [control] entry *)

Module ControlStyles.

(** A style object maps property names to strings or, for the nested
    selectors ['&:hover'] and ['&:focus'], to a block of properties. *)
Inductive StyleValue : Type :=
| Text (s : string)
| Block (rules : gmap string string).

(** [control: (provided, state) => props.hasError ? { ...provided, ... } : provided],
    with [borderError] for the token [colors.input.borderError], which the
    sources do not contain. *)
Definition control (hasError : option bool) (borderError : string)
    (provided : gmap string StyleValue) (isFocused : bool)
    : gmap string StyleValue :=
  if Js.truthy hasError
  then
    <["&:focus" :=
        Block (<["boxShadow" := "0 0 0 2px " +:+ borderError]>
                 {["borderColor" := borderError]})]>
      (<["&:hover" := Block {["borderColor" := borderError]}]>
         (<["boxShadow" :=
              Text ("0 0 0 " +:+ (if isFocused then "1" else "0") +:+ "px "
                    +:+ borderError)]>
            (<["borderColor" := Text borderError]> provided)))
  else provided.

(** The property names the error state writes. *)
Definition errorKeys : gset string :=
  {["borderColor"; "boxShadow"; "&:hover"; "&:focus"]}.

End ControlStyles.

(** ** The class [Alert] *)

Module Alert.

(** [IAlertAppearance]. *)
Inductive Appearance : Type := default | information | success | warning | danger.

(** [IAlertProps]; [title] is taken as text and [dismissAfterSeconds] as a
    whole number of seconds. *)
Record Props : Type := mkProps {
  id : option string;
  type : option Appearance;
  appearance : option Appearance;
  icon : option string;
  title : option string;
  text : option string;
  link : option string;
  dismissible : option bool;
  onDismiss : option Handle;
  dismissAfterSeconds : option Z
}.

(** React fills in [Alert.defaultProps] ([type: 'default'],
    [dismissible: true]) for the props left undefined. *)
Definition withDefaults (p : Props) : Props :=
  mkProps (id p)
    (match type p with Some t => Some t | None => Some default end)
    (appearance p) (icon p) (title p) (text p) (link p)
    (match dismissible p with Some d => Some d | None => Some true end)
    (onDismiss p) (dismissAfterSeconds p).

(** [iconColorMap[appearance]]. *)
Definition iconColorMap (a : option Appearance) : option string :=
  match a with
  | Some default => Some "default"
  | Some information => Some "blueDarker"
  | Some success => Some "greenDarker"
  | Some warning => Some "yellow"
  | Some danger => Some "redDarker"
  | None => None
  end.

(** A mounted alert: props, [state.visible], [this.timer] (the delay of the
    timeout it registered, in milliseconds), whether the window still holds
    that timeout, whether the component is mounted, and the calls made to
    [props.onDismiss] so far, oldest first. *)
Record Instance : Type := mkInstance {
  props : Props;
  visible : bool;
  timer : option Z;
  pending : bool;
  mounted : bool;
  dismissCalls : list Handle
}.

(** [constructor(props)]: [this.state = { visible: true }]. *)
Definition constructor (p : Props) : Instance :=
  mkInstance p true None false false [].

(** A number is truthy unless it is zero. *)
Definition truthyNumber (n : option Z) : bool :=
  match n with
  | Some z => negb (Z.eqb z 0)
  | None => false
  end.

(** A string is truthy unless it is empty. *)
Definition truthyString (s : option string) : bool :=
  match s with
  | Some s => negb (bool_decide (s = EmptyString))
  | None => false
  end.

(** [componentDidMount()]: with a truthy [dismissAfterSeconds],
    [this.timer = window.setTimeout(this.dismiss, dismissAfterSeconds * 1000)]. *)
Definition componentDidMount (this : Instance) : Instance :=
  match dismissAfterSeconds (props this) with
  | Some seconds =>
      if truthyNumber (Some seconds)
      then mkInstance (props this) (visible this) (Some (seconds * 1000)%Z) true
             true (dismissCalls this)
      else mkInstance (props this) (visible this) (timer this) (pending this)
             true (dismissCalls this)
  | None =>
      mkInstance (props this) (visible this) (timer this) (pending this)
        true (dismissCalls this)
  end.

(** [componentWillUnmount()]: [if (this.timer) window.clearTimeout(this.timer)]. *)
Definition componentWillUnmount (this : Instance) : Instance :=
  mkInstance (props this) (visible this) (timer this)
    (match timer this with Some _ => false | None => pending this end)
    false (dismissCalls this).

(** [dismiss]: [this.setState({ visible: false })], then [props.onDismiss()]
    if it is a function. *)
Definition dismiss (this : Instance) : Instance :=
  mkInstance (props this) false (timer this) (pending this) (mounted this)
    (match onDismiss (props this) with
     | Some f => dismissCalls this ++ [f]
     | None => dismissCalls this
     end).

(** What [render] returns while the alert is visible, as far as this file
    decides it: the resolved appearance, the icon with its colour, the title,
    the target of the read-more link and whether the close button is there. *)
Record Element : Type := mkElement {
  elementAppearance : option Appearance;
  elementDismissible : option bool;
  elementIcon : option (string * option string);
  elementTitle : option string;
  readMore : option string;
  closeButton : bool
}.

(** [render()]; [None] is [null]. *)
Definition render (this : Instance) : option Element :=
  let appearance :=
    match appearance (props this) with
    | Some a => Some a
    | None => type (props this)
    end in
  if visible this
  then Some
         (mkElement appearance (dismissible (props this))
            (match icon (props this) with
             | Some name =>
                 if truthyString (Some name)
                 then Some (name, iconColorMap appearance)
                 else None
             | None => None
             end)
            (title (props this))
            (if truthyString (link (props this)) then link (props this) else None)
            (Js.truthy (dismissible (props this))))
  else None.

(** What can happen to a mounted alert: a click on the close button, the
    timeout running out, the parent unmounting it. *)
Inductive Signal : Type := Click | TimerFires | Unmount.

(** A click needs the close button on screen, the timeout fires once and
    only while the window holds it. *)
Definition deliver (this : Instance) (s : Signal) : Instance :=
  match s with
  | Click =>
      match render this with
      | Some element =>
          if mounted this && closeButton element then dismiss this else this
      | None => this
      end
  | TimerFires =>
      if pending this
      then dismiss
             (mkInstance (props this) (visible this) (timer this) false
                (mounted this) (dismissCalls this))
      else this
  | Unmount => componentWillUnmount this
  end.

Definition run (this : Instance) (signals : list Signal) : Instance :=
  fold_left deliver signals this.

(** From construction to the end of a run. *)
Definition lifetime (p : Props) (signals : list Signal) : Instance :=
  run (componentDidMount (constructor (withDefaults p))) signals.

End Alert.

(** An alert with a handler, dismissed after five seconds. *)
Definition timedAlertProps : Alert.Props :=
  Alert.mkProps None None (Some Alert.warning) (Some "hourglass")
    (Some "A title") None (Some "/test") None (Some (handle 7)) (Some 5%Z).

(** * Properties *)

(** ** Strict equality *)

Lemma strict_eq_true a b : Js.strict_eq a b = true <-> a = b.
Proof. unfold Js.strict_eq. apply bool_decide_eq_true. Qed.

Lemma strict_eq_false a b : Js.strict_eq a b = false <-> a <> b.
Proof. unfold Js.strict_eq. apply bool_decide_eq_false. Qed.

(** ** Normalisation keeps the structure of the tree *)

Section Normalisation.

Import cosmosToReactSelect.

Lemma Forall_under_forallb {A} (p : A -> bool) (Q : A -> Prop) l :
  Forall (fun x => p x = true -> Q x) l -> forallb p l = true -> Forall Q l.
Proof.
  intros HF Hp. rewrite forallb_forall in Hp.
  rewrite List.Forall_forall in *. intros x Hx. apply HF; auto.
Qed.

Local Ltac by_children IH H :=
  cbn in H |- *;
  lazymatch goal with
  | |- context [?r !! "options"] => destruct (r !! "options"); [discriminate H|]
  end;
  cbn; rewrite ?map_map;
  repeat (lazymatch goal with
          | |- map _ _ = map _ _ => fail
          | _ => f_equal
          end);
  apply map_ext_Forall; exact (Forall_under_forallb _ _ _ IH H).

Local Ltac by_leaf :=
  cbn;
  lazymatch goal with
  | |- context [?r !! "options"] => destruct (r !! "options"); reflexivity
  end.

Lemma entry_leafCount c :
  CallerTree.withoutOwnOptions c = true ->
  CanonTree.leafCount (entry c) = CallerTree.leafCount c.
Proof.
  induction c as [|its g d l t v r IH] using Caller.Option_ind; intros H;
    [by_leaf|by_children IH H].
Qed.

Lemma entry_nodeCount c :
  CallerTree.withoutOwnOptions c = true ->
  CanonTree.nodeCount (entry c) = CallerTree.nodeCount c.
Proof.
  induction c as [|its g d l t v r IH] using Caller.Option_ind; intros H;
    [by_leaf|by_children IH H].
Qed.

Lemma entry_depth c :
  CallerTree.withoutOwnOptions c = true ->
  CanonTree.depth (entry c) = CallerTree.depth c.
Proof.
  induction c as [|its g d l t v r IH] using Caller.Option_ind; intros H;
    [by_leaf|by_children IH H].
Qed.

Lemma entry_leafValues c :
  CallerTree.withoutOwnOptions c = true ->
  CanonTree.leafValues (entry c) = CallerTree.leafValues c.
Proof.
  induction c as [|its g d l t v r IH] using Caller.Option_ind; intros H;
    [by_leaf|by_children IH H].
Qed.

Lemma entry_shape c :
  CallerTree.withoutOwnOptions c = true ->
  CanonTree.shape (entry c) = CallerTree.shape c.
Proof.
  induction c as [|its g d l t v r IH] using Caller.Option_ind; intros H;
    [by_leaf|by_children IH H].
Qed.

(** A node is a group after normalisation exactly if it had [items] and no
    [options] property of its own. *)
Lemma entry_is_group c :
  is_Some (Canon.options (entry c))
  <-> is_Some (Caller.items c) /\ Caller.rest c !! "options" = None.
Proof.
  destruct c as [[its|] g d l t v r]; cbn; destruct (r !! "options");
    split; try (intros [[x H] E]); try (intros [x H]); eauto; discriminate.
Qed.

Lemma options_lookup (tree : list Caller.Option) (i : nat) :
  options tree !! i = entry <$> tree !! i.
Proof. unfold options. apply list_lookup_fmap. Qed.

(** C7 (amended): for every caller option tree in which no node carries an
    [options] property of its own, [cosmosToReactSelect.options] keeps the
    structure: the result has as many top-level entries, leaves and nodes as
    the input, the same nesting depth and the same left-to-right sequence of
    leaves; position by position the result entry is the image of the input
    entry and has the same shape, so nothing is dropped, reordered or
    merged. *)
Theorem options_preserves_structure (tree : list Caller.Option) :
  forallb CallerTree.withoutOwnOptions tree = true ->
  length (options tree) = length tree
  /\ CanonTree.leaves (options tree) = CallerTree.leaves tree
  /\ CanonTree.nodes (options tree) = CallerTree.nodes tree
  /\ CanonTree.height (options tree) = CallerTree.height tree
  /\ CanonTree.leafSequence (options tree) = CallerTree.leafSequence tree
  /\ map CanonTree.shape (options tree) = map CallerTree.shape tree
  /\ (forall i, options tree !! i = entry <$> tree !! i).
Proof.
  intros Hown. rewrite forallb_forall in Hown.
  unfold CanonTree.leaves, CanonTree.nodes, CanonTree.height,
    CanonTree.leafSequence, CallerTree.leaves, CallerTree.nodes,
    CallerTree.height, CallerTree.leafSequence, options.
  rewrite !map_map, length_map.
  repeat split.
  - f_equal. apply map_ext_in. intros c Hc. apply entry_leafCount, Hown, Hc.
  - f_equal. apply map_ext_in. intros c Hc. apply entry_nodeCount, Hown, Hc.
  - f_equal. apply map_ext_in. intros c Hc. apply entry_depth, Hown, Hc.
  - f_equal. apply map_ext_in. intros c Hc. apply entry_leafValues, Hown, Hc.
  - apply map_ext_in. intros c Hc. apply entry_shape, Hown, Hc.
  - intros i. apply list_lookup_fmap.
Qed.

Lemma options_preserves_structure_witness :
  CanonTree.leaves scenarioTree = 2
  /\ CanonTree.height scenarioTree = 2
  /\ CanonTree.leafSequence scenarioTree = [Js.str "a"; Js.str "b"].
Proof.
  destruct (options_preserves_structure scenarioOptions eq_refl)
    as (_ & Hleaves & _ & Hheight & Hsequence & _).
  unfold scenarioTree. rewrite Hleaves, Hheight, Hsequence.
  repeat split.
Defined.

(** C7 as stated fails: an [options] property of the caller's own replaces
    the list computed from [items], and the nested options are gone. *)
Lemma own_options_property_drops_the_items :
  ~ (forall tree : list Caller.Option,
        length (options tree) = length tree
        /\ CanonTree.leaves (options tree) = CallerTree.leaves tree
        /\ CanonTree.nodes (options tree) = CallerTree.nodes tree
        /\ CanonTree.height (options tree) = CallerTree.height tree
        /\ CanonTree.leafSequence (options tree) = CallerTree.leafSequence tree
        /\ map CanonTree.shape (options tree) = map CallerTree.shape tree).
Proof.
  intros claim.
  destruct (claim overriddenGroup) as (_ & _ & _ & Hheight & _).
  vm_compute in Hheight. discriminate Hheight.
Qed.

End Normalisation.

(** ** The resolver's search *)

Section Resolver.

Import cosmosToReactSelect.

Variable matches : Canon.Option -> bool.

Lemma lastMatch_cons a l :
  lastMatch matches (a :: l) =
  match lastMatch matches l with
  | Some y => Some y
  | None => if matches a then Some a else None
  end.
Proof.
  unfold lastMatch. cbn. destruct (matches a).
  - apply last_cons.
  - destruct (last (List.filter matches l)); reflexivity.
Qed.

Lemma lastMatch_app l1 l2 :
  lastMatch matches (l1 ++ l2) =
  match lastMatch matches l2 with
  | Some y => Some y
  | None => lastMatch matches l1
  end.
Proof. unfold lastMatch. rewrite List.filter_app. apply last_app. Qed.

Lemma lastMatch_Some l x :
  lastMatch matches l = Some x -> In x l /\ matches x = true.
Proof.
  unfold lastMatch. intros H. apply last_Some in H as [l' H].
  apply List.filter_In. rewrite H. apply in_or_app. right. left. reflexivity.
Qed.

Lemma lastMatch_None l :
  lastMatch matches l = None -> Forall (fun y => matches y = false) l.
Proof.
  unfold lastMatch. intros H. apply last_None in H.
  apply List.Forall_forall. intros y Hy.
  destruct (matches y) eqn:E; [|reflexivity].
  assert (In y (List.filter matches l)) as Hin by (apply List.filter_In; auto).
  rewrite H in Hin. destruct Hin.
Qed.

Lemma lastMatch_split before x after :
  matches x = true ->
  Forall (fun y => matches y = false) after ->
  lastMatch matches (before ++ x :: after) = Some x.
Proof.
  intros Hx Hafter. rewrite lastMatch_app, lastMatch_cons, Hx.
  assert (lastMatch matches after = None) as ->; [|reflexivity].
  unfold lastMatch. apply last_None.
  induction Hafter as [|y l Hy _ IH]; cbn; [reflexivity|].
  rewrite Hy. exact IH.
Qed.

(** The inner loop leaves the last match in [valueFound], or what was there. *)
Lemma scanSubOptions_lastMatch subOptions valueFound :
  scanSubOptions matches valueFound subOptions =
  match lastMatch matches subOptions with
  | Some y => Some y
  | None => valueFound
  end.
Proof.
  revert valueFound. induction subOptions as [|a l IH]; intros valueFound.
  - reflexivity.
  - unfold scanSubOptions in *. cbn [fold_left]. rewrite IH, lastMatch_cons.
    destruct (lastMatch matches l), (matches a); reflexivity.
Qed.

Lemma scanGroups_from options valueFound :
  fold_left
    (fun found option =>
       match Canon.options option with
       | Some subOptions => scanSubOptions matches found subOptions
       | None => found
       end) options valueFound =
  match lastMatch matches (CanonTree.nestedOptions options) with
  | Some y => Some y
  | None => valueFound
  end.
Proof.
  revert valueFound. induction options as [|o l IH]; intros valueFound.
  - reflexivity.
  - cbn [fold_left]. rewrite IH. unfold CanonTree.nestedOptions. cbn [map concat].
    rewrite lastMatch_app. fold (CanonTree.nestedOptions l).
    destruct (lastMatch matches (CanonTree.nestedOptions l)); [reflexivity|].
    destruct (Canon.options o) as [subs|]; cbn [default].
    + apply scanSubOptions_lastMatch.
    + reflexivity.
Qed.

(** After both loops [valueFound] is the last nested match, else [null]. *)
Lemma scanGroups_lastMatch options :
  scanGroups matches options = lastMatch matches (CanonTree.nestedOptions options).
Proof.
  unfold scanGroups. rewrite scanGroups_from.
  destruct (lastMatch matches _); reflexivity.
Qed.

(** [find] returns the first match. *)
Lemma find_split before x after :
  matches x = true ->
  Forall (fun y => matches y = false) before ->
  find matches (before ++ x :: after) = Some x.
Proof.
  intros Hx Hbefore. induction Hbefore as [|y l Hy _ IH]; cbn.
  - rewrite Hx. reflexivity.
  - rewrite Hy. exact IH.
Qed.

Lemma find_all_false l :
  Forall (fun y => matches y = false) l -> find matches l = None.
Proof.
  intros H. induction H as [|y l Hy _ IH]; cbn; [reflexivity|].
  rewrite Hy. exact IH.
Qed.

End Resolver.

Section ResolverResults.

Import cosmosToReactSelect.

Variable getOptionValue : Canon.Option -> Js.val.

Lemma scalar_unfold raw options :
  scalar getOptionValue raw options =
  match lastMatch (matchValue getOptionValue raw) (CanonTree.nestedOptions options) with
  | Some x => ResOption x
  | None =>
      match find (matchValue getOptionValue raw) options with
      | Some o => ResOption o
      | None => ResUndefined
      end
  end.
Proof. unfold scalar. rewrite scanGroups_lastMatch. reflexivity. Qed.

Lemma scalar_nested raw options x :
  lastMatch (matchValue getOptionValue raw) (CanonTree.nestedOptions options) = Some x ->
  scalar getOptionValue raw options = ResOption x.
Proof. intros H. rewrite scalar_unfold, H. reflexivity. Qed.

Lemma scalar_top_level raw options :
  Forall (fun y => matchValue getOptionValue raw y = false)
    (CanonTree.nestedOptions options) ->
  scalar getOptionValue raw options =
  match find (matchValue getOptionValue raw) options with
  | Some o => ResOption o
  | None => ResUndefined
  end.
Proof.
  intros H. rewrite scalar_unfold.
  destruct (lastMatch _ _) as [x|] eqn:E; [|reflexivity].
  apply lastMatch_Some in E as [Hin Hx].
  rewrite List.Forall_forall in H. rewrite (H _ Hin) in Hx. discriminate.
Qed.

Lemma scalar_unmatched raw options :
  Forall (fun y => matchValue getOptionValue raw y = false)
    (CanonTree.searched options) ->
  scalar getOptionValue raw options = ResUndefined.
Proof.
  unfold CanonTree.searched. intros H. apply Forall_app in H as [Hn Ht].
  rewrite scalar_top_level by exact Hn.
  rewrite find_all_false by exact Ht. reflexivity.
Qed.

(** A proper key goes through the scalar rule. *)
Lemma valueWith_key v options :
  v <> Js.null -> v <> Js.undefined ->
  valueWith getOptionValue (RVal v) options = scalar getOptionValue (RVal v) options.
Proof. intros Hn Hu. destruct v; try reflexivity; congruence. Qed.

Lemma matchValue_key v o :
  matchValue getOptionValue (RVal v) o = true <-> getOptionValue o = v.
Proof. cbn. apply strict_eq_true. Qed.

End ResolverResults.

(** ** Which entry the scalar rule returns *)

Section SearchOrder.

Import cosmosToReactSelect.

(** C2 (amended): the scan of the groups' nested option lists (groups in
    order of appearance, entries in order within each group) does not stop at
    a match; the LAST nested entry whose extracted key equals the raw value is
    the resolved value, so of two nested leaves with the same key in
    different groups the later one is returned. *)
Theorem nested_scan_last_match_wins
    (getOptionValue : Canon.Option -> Js.val) (raw : Raw)
    (options before after : list Canon.Option) (x : Canon.Option) :
  CanonTree.nestedOptions options = (before ++ x :: after)%list ->
  matchValue getOptionValue raw x = true ->
  Forall (fun y => matchValue getOptionValue raw y = false) after ->
  scalar getOptionValue raw options = ResOption x.
Proof.
  intros Hsplit Hx Hafter. apply scalar_nested.
  rewrite Hsplit. apply lastMatch_split; assumption.
Qed.

Lemma nested_scan_last_match_wins_witness :
  scalar defaultGetOptionValue (RVal (Js.str "a")) twoGroups
  = ResOption (Canon.leaf (Js.str "a") "second").
Proof.
  apply (nested_scan_last_match_wins defaultGetOptionValue (RVal (Js.str "a"))
           twoGroups [Canon.leaf (Js.str "a") "first"] []).
  - reflexivity.
  - reflexivity.
  - constructor.
Defined.

(** C2 as stated fails: with the same key in two groups the first nested
    match is not the one returned. *)
Lemma first_nested_match_is_not_returned :
  ~ (forall (getOptionValue : Canon.Option -> Js.val) (raw : Raw)
       (options before after : list Canon.Option) (x : Canon.Option),
       CanonTree.nestedOptions options = (before ++ x :: after)%list ->
       matchValue getOptionValue raw x = true ->
       Forall (fun y => matchValue getOptionValue raw y = false) before ->
       scalar getOptionValue raw options = ResOption x).
Proof.
  intros claim.
  specialize (claim defaultGetOptionValue (RVal (Js.str "a")) twoGroups []
                [Canon.leaf (Js.str "a") "second"]
                (Canon.leaf (Js.str "a") "first")
                eq_refl eq_refl (List.Forall_nil _)).
  vm_compute in claim. discriminate claim.
Qed.

(** C4: when some entry nested in a group matches the raw value, the scalar
    rule returns a nested matching entry (the only one, if it is the only
    nested match) whatever the top-level list holds; the top-level list is
    searched, with [find], only when no nested entry matches. *)
Theorem nested_match_shadows_top_level
    (getOptionValue : Canon.Option -> Js.val) (raw : Raw)
    (options : list Canon.Option) :
  (forall nested,
      In nested (CanonTree.nestedOptions options) ->
      matchValue getOptionValue raw nested = true ->
      exists x,
        scalar getOptionValue raw options = ResOption x
        /\ In x (CanonTree.nestedOptions options)
        /\ matchValue getOptionValue raw x = true
        /\ ((forall y, In y (CanonTree.nestedOptions options) ->
                       matchValue getOptionValue raw y = true -> y = nested) ->
            x = nested))
  /\ (Forall (fun y => matchValue getOptionValue raw y = false)
        (CanonTree.nestedOptions options) ->
      scalar getOptionValue raw options =
      match find (matchValue getOptionValue raw) options with
      | Some o => ResOption o
      | None => ResUndefined
      end).
Proof.
  split.
  - intros nested Hin Hm. rewrite scalar_unfold.
    destruct (lastMatch _ _) as [x|] eqn:E.
    + apply lastMatch_Some in E as [Hx Hmx].
      exists x. repeat split; auto.
    + apply lastMatch_None in E. rewrite List.Forall_forall in E.
      rewrite (E _ Hin) in Hm. discriminate.
  - apply scalar_top_level.
Qed.

Lemma nested_match_shadows_top_level_witness :
  scalar defaultGetOptionValue (RVal (Js.str "b")) collidingTree
  = ResOption (Canon.leaf (Js.str "b") "B")
  /\ scalar defaultGetOptionValue (RVal (Js.str "a")) scenarioTree
     = ResOption (Canon.leaf (Js.str "a") "A").
Proof.
  split.
  - destruct (nested_match_shadows_top_level defaultGetOptionValue
                (RVal (Js.str "b")) collidingTree) as [Hnested _].
    destruct (Hnested (Canon.leaf (Js.str "b") "B")) as (x & Hx & _ & _ & Hunique).
    + left. reflexivity.
    + reflexivity.
    + rewrite Hx. f_equal. apply Hunique.
      intros y [Hy|[]] _. symmetry. exact Hy.
  - destruct (nested_match_shadows_top_level defaultGetOptionValue
                (RVal (Js.str "a")) scenarioTree) as [_ Htop].
    rewrite Htop.
    + reflexivity.
    + repeat constructor.
Defined.

End SearchOrder.

(** ** Round trip and sequences *)

Section RoundTrip.

Import cosmosToReactSelect.

(** The exact condition under which resolving a key gives back a chosen
    entry: it is the last nested match, or there is no nested match and it is
    the first top-level match. *)
Lemma value_returns (getOptionValue : Canon.Option -> Js.val) (v : Js.val)
    (options before after : list Canon.Option) (L : Canon.Option) :
  v <> Js.null -> v <> Js.undefined ->
  getOptionValue L = v ->
  (CanonTree.nestedOptions options = (before ++ L :: after)%list
   /\ Forall (fun y => getOptionValue y <> v) after)
  \/ (Forall (fun y => getOptionValue y <> v) (CanonTree.nestedOptions options)
      /\ options = (before ++ L :: after)%list
      /\ Forall (fun y => getOptionValue y <> v) before) ->
  valueWith getOptionValue (RVal v) options = ResOption L.
Proof.
  intros Hn Hu HL Hcases. rewrite valueWith_key by assumption.
  assert (forall l, Forall (fun y => getOptionValue y <> v) l ->
                    Forall (fun y => matchValue getOptionValue (RVal v) y = false) l)
    as Hno.
  { intros l. apply List.Forall_impl. intros y Hy. cbn. apply strict_eq_false, Hy. }
  assert (matchValue getOptionValue (RVal v) L = true) as Hm
    by (apply matchValue_key, HL).
  destruct Hcases as [[Hsplit Hafter]|(Hnested & Hsplit & Hbefore)].
  - apply scalar_nested. rewrite Hsplit. apply lastMatch_split; auto.
  - rewrite scalar_top_level by auto.
    rewrite Hsplit, find_split; auto.
Qed.

(** C6 (amended): for every canonical option list and every entry L among
    those the resolver searches (the top-level entries and the entries
    directly inside top-level groups) whose extracted key is neither [null]
    nor [undefined] and is shared by no other searched entry, resolving the
    key of L with the same extractor returns L. *)
Theorem resolve_roundtrip_unique_key
    (getOptionValue : option (Canon.Option -> Js.val))
    (tree : list Canon.Option) (L : Canon.Option) :
  let key := default defaultGetOptionValue getOptionValue in
  In L (CanonTree.searched tree) ->
  key L <> Js.null -> key L <> Js.undefined ->
  (forall y, In y (CanonTree.searched tree) -> key y = key L -> y = L) ->
  value (RVal (key L)) tree getOptionValue = ResOption L.
Proof.
  intros key HL Hn Hu Hunique. unfold value. fold key.
  rewrite valueWith_key by assumption. rewrite scalar_unfold.
  assert (matchValue key (RVal (key L)) L = true) as HmL
    by (apply matchValue_key; reflexivity).
  unfold CanonTree.searched in *.
  destruct (lastMatch _ _) as [x|] eqn:E.
  - apply lastMatch_Some in E as [Hx Hmx]. f_equal.
    apply Hunique; [apply in_or_app; auto|]. apply matchValue_key, Hmx.
  - apply lastMatch_None in E. rewrite List.Forall_forall in E.
    apply in_app_or in HL as [HL|HL].
    + rewrite (E _ HL) in HmL. discriminate.
    + destruct (find _ tree) as [y|] eqn:F.
      * apply find_some in F as [Hy Hmy]. f_equal.
        apply Hunique; [apply in_or_app; auto|]. apply matchValue_key, Hmy.
      * rewrite (find_none _ _ F _ HL) in HmL. discriminate.
Qed.

Lemma resolve_roundtrip_unique_key_witness :
  value (RVal (Js.str "b")) scenarioTree None
  = ResOption (Canon.leaf (Js.str "b") "B").
Proof.
  apply (resolve_roundtrip_unique_key None scenarioTree
           (Canon.leaf (Js.str "b") "B")).
  - left. reflexivity.
  - discriminate.
  - discriminate.
  - intros y [Hy|[Hy|[Hy|[]]]] Hkey; subst y; try reflexivity; discriminate Hkey.
Defined.

(** C6 as stated fails: a leaf that shares its key with an earlier leaf is
    not the one its key resolves to. *)
Lemma roundtrip_fails_on_shared_key :
  ~ (forall (getOptionValue : option (Canon.Option -> Js.val))
       (tree : list Canon.Option) (L : Canon.Option),
       In L (concat (map CanonTree.leafNodes tree)) ->
       value (RVal (default defaultGetOptionValue getOptionValue L)) tree
         getOptionValue = ResOption L).
Proof.
  intros claim.
  specialize (claim None duplicateTree (Canon.leaf (Js.str "a") "B")).
  assert (In (Canon.leaf (Js.str "a") "B")
            (concat (map CanonTree.leafNodes duplicateTree))) as Hin
    by (right; left; reflexivity).
  specialize (claim Hin). vm_compute in claim. discriminate claim.
Qed.

(** C8 (amended): resolving a raw sequence yields a sequence of the same
    length and order whose positions hold the resolver's result for the
    corresponding element, so [[v1, v2, v3]] gives exactly three results and the
    empty sequence gives the empty sequence.  For an element that is neither
    [null], [undefined] nor an array that result is its scalar resolution,
    which is [undefined] (kept in place) when no searched entry matches; for a
    [null] or [undefined] element it is [null]. *)
Theorem value_of_sequence
    (getOptionValue : option (Canon.Option -> Js.val))
    (tree : list Canon.Option) :
  let key := default defaultGetOptionValue getOptionValue in
  (forall l, value (RArray l) tree getOptionValue
             = ResArray (map (fun item => value item tree getOptionValue) l))
  /\ (forall v1 v2 v3,
         value (RArray [v1; v2; v3]) tree getOptionValue
         = ResArray [value v1 tree getOptionValue;
                     value v2 tree getOptionValue;
                     value v3 tree getOptionValue])
  /\ value (RArray []) tree getOptionValue = ResArray []
  /\ (forall v, v <> Js.null -> v <> Js.undefined ->
                value (RVal v) tree getOptionValue = scalar key (RVal v) tree)
  /\ (forall v, Forall (fun y => key y <> v) (CanonTree.searched tree) ->
                scalar key (RVal v) tree = ResUndefined)
  /\ value (RVal Js.null) tree getOptionValue = ResNull
  /\ value (RVal Js.undefined) tree getOptionValue = ResNull.
Proof.
  intros key. unfold value. fold key. repeat split.
  - intros v Hn Hu. apply valueWith_key; assumption.
  - intros v H. apply scalar_unmatched.
    revert H. apply List.Forall_impl. intros y Hy. cbn. apply strict_eq_false, Hy.
Qed.

Lemma value_of_sequence_witness :
  value (RArray [RVal (Js.str "a"); RVal (Js.str "x")]) scenarioTree None
  = ResArray [ResOption (Canon.leaf (Js.str "a") "A"); ResUndefined].
Proof.
  destruct (value_of_sequence None scenarioTree)
    as (Hmap & _ & _ & Hkey & Hmiss & _ & _).
  rewrite Hmap. cbn [map].
  rewrite (Hkey (Js.str "a")), (Hkey (Js.str "x")) by discriminate.
  rewrite (Hmiss (Js.str "x")).
  - reflexivity.
  - repeat constructor; discriminate.
Defined.

(** C8 as stated fails: a [null] element is answered with [null], not with
    the scalar rule's [undefined]. *)
Lemma null_element_is_not_undefined :
  ~ (forall (tree : list Canon.Option) (v1 v2 v3 : Raw),
       value (RArray [v1; v2; v3]) tree None
       = ResArray [scalar defaultGetOptionValue v1 tree;
                   scalar defaultGetOptionValue v2 tree;
                   scalar defaultGetOptionValue v3 tree]).
Proof.
  intros claim.
  specialize (claim scenarioTree (RVal Js.null) (RVal (Js.str "a")) (RVal (Js.str "x"))).
  vm_compute in claim. discriminate claim.
Qed.

End RoundTrip.

(** ** The menu controller *)

Section MenuController.

Import Select.

Lemma deliver_scrollListener this s :
  scrollListener (deliver this s) = scrollListener this.
Proof.
  destruct s; cbn; try reflexivity.
  unfold handleScroll. destruct (scrollListener this) eqn:E, (menuIsOpen this); cbn; auto.
Qed.

Lemma deliver_forceUpdates this s :
  scrollListener this = true ->
  forceUpdates (deliver this s) =
  match s with
  | Scroll => if menuIsOpen this then S (forceUpdates this) else forceUpdates this
  | MenuOpen | MenuClose => forceUpdates this
  end.
Proof.
  intros Hl. destruct s; cbn; try reflexivity.
  rewrite Hl. unfold handleScroll. destruct (menuIsOpen this); reflexivity.
Qed.

Lemma run_forceUpdates signals : forall this,
  scrollListener this = true ->
  forceUpdates (run this signals) = forceUpdates this + scrollsWhileOpen this signals.
Proof.
  unfold run, scrollsWhileOpen.
  induction signals as [|s rest IH]; intros this Hl.
  - cbn. lia.
  - cbn [fold_left statesBefore List.filter].
    rewrite IH by (rewrite deliver_scrollListener; exact Hl).
    rewrite deliver_forceUpdates by exact Hl.
    destruct s; cbn [length]; try lia.
    destruct (menuIsOpen this); cbn [length]; lia.
Qed.

(** C9: on a mounted instance a signal calls [forceUpdate] exactly if it is a
    scroll event arriving while [menuIsOpen] holds; over any run the number of
    [forceUpdate] calls is the number of scroll events that arrived while the
    menu was open, and the run open, scroll, scroll, close, scroll makes
    exactly two. *)
Theorem scroll_repositions_iff_open (this : Instance) :
  scrollListener this = true ->
  (forall s, repositions this s = true <-> s = Scroll /\ menuIsOpen this = true)
  /\ (forall signals,
        forceUpdates (run this signals)
        = forceUpdates this + scrollsWhileOpen this signals)
  /\ forceUpdates (run this [MenuOpen; Scroll; Scroll; MenuClose; Scroll])
     = forceUpdates this + 2
  /\ menuIsOpen (run this [MenuOpen; Scroll; Scroll; MenuClose; Scroll]) = false.
Proof.
  intros Hl. split; [|split; [|split]].
  - intros s. unfold repositions. rewrite bool_decide_eq_true.
    rewrite deliver_forceUpdates by exact Hl.
    destruct s, (menuIsOpen this); split; try lia; try tauto;
      intros [E1 E2]; discriminate.
  - intros signals. apply run_forceUpdates, Hl.
  - rewrite run_forceUpdates by exact Hl. f_equal.
    unfold scrollsWhileOpen. cbn. rewrite Hl. reflexivity.
  - unfold run. cbn. repeat (rewrite Hl; cbn). reflexivity.
Qed.

Lemma scroll_repositions_iff_open_witness :
  forceUpdates
    (run (componentDidMount (constructor ISelectProps.defaults))
       [MenuOpen; Scroll; Scroll; MenuClose; Scroll]) = 2.
Proof.
  destruct (scroll_repositions_iff_open
              (componentDidMount (constructor ISelectProps.defaults)) eq_refl)
    as (_ & _ & Hrun & _).
  rewrite Hrun. reflexivity.
Defined.

End MenuController.

(** ** What [render] hands to the widget *)

Section Rendering.

Import Select.

(** The attributes of the full widget, read off [render]. *)
Lemma render_attributes this formFieldId attrs :
  attributesOf (render this formFieldId).1 = Some attrs ->
  needsFullWidget (props this) = true
  /\ isSearchable attrs = renderedSearchable (props this)
  /\ isMulti attrs = ISelectProps.multiple (props this)
  /\ value attrs
     = renderedValue (props this)
         (cosmosToReactSelect.options (ISelectProps.options (props this)))
  /\ onChange attrs = renderedOnChange (props this)
  /\ name attrs = ISelectProps.name (props this)
  /\ loadOptions attrs = ISelectProps.loadOptions (props this).
Proof.
  unfold render.
  destruct (needsFullWidget (props this)); cbn; [|discriminate].
  destruct (ISelectProps.defaultOptions (props this)) as [[l|[|]]|]; cbn;
    intros H; try discriminate; injection H as <-; cbn; repeat split.
Qed.

(** C10: in the full-widget path the [isSearchable] attribute is
    [props.async || props.searchable]; it is truthy exactly if one of the two
    flags is, so async mode makes the widget searchable whatever the caller
    set [searchable] to. *)
Theorem async_implies_searchable this formFieldId attrs :
  attributesOf (render this formFieldId).1 = Some attrs ->
  isSearchable attrs
  = or_bool (ISelectProps.async (props this)) (ISelectProps.searchable (props this))
  /\ Js.truthy (isSearchable attrs)
     = Js.truthy (ISelectProps.async (props this))
       || Js.truthy (ISelectProps.searchable (props this))
  /\ (Js.truthy (ISelectProps.async (props this)) = true ->
      Js.truthy (isSearchable attrs) = true).
Proof.
  intros H. apply render_attributes in H as (_ & -> & _).
  unfold renderedSearchable, or_bool.
  destruct (Js.truthy (ISelectProps.async (props this))) eqn:E; cbn;
    repeat split; rewrite ?E; auto; discriminate.
Qed.

Lemma async_implies_searchable_witness :
  exists attrs,
    attributesOf (render (constructor asyncCachingProps) None).1 = Some attrs
    /\ ISelectProps.searchable asyncCachingProps = Some false
    /\ Js.truthy (isSearchable attrs) = true.
Proof.
  eexists. split; [reflexivity|]. split; [reflexivity|].
  refine (proj2 (proj2 (async_implies_searchable
                          (constructor asyncCachingProps) None _ eq_refl)) eq_refl).
Defined.

(** C1 (amended): the multiplicity of the value the resolver computes is that
    of the raw value's runtime shape ([null] or [undefined] gives [null], an
    array gives a sequence resolved element by element, anything else a
    single record or [undefined]); in sync mode this is the widget's [value],
    which depends on the props [value], [options] and [getOptionValue] only
    and so not on [multiple]. *)
Theorem multiplicity_follows_raw_shape :
  (forall raw tree getOptionValue,
      multiplicity (cosmosToReactSelect.value raw tree getOptionValue) = rawShape raw)
  /\ (forall l tree getOptionValue,
         cosmosToReactSelect.value (RArray l) tree getOptionValue
         = ResArray (map (fun item => cosmosToReactSelect.value item tree getOptionValue) l))
  /\ (forall this formFieldId attrs,
         attributesOf (render this formFieldId).1 = Some attrs ->
         Js.truthy (ISelectProps.async (props this)) = false ->
         value attrs
         = Computed (cosmosToReactSelect.value
                       (ISelectProps.value (props this))
                       (cosmosToReactSelect.options (ISelectProps.options (props this)))
                       (ISelectProps.getOptionValue (props this)))
         /\ widgetMultiplicity (value attrs) = rawShape (ISelectProps.value (props this)))
  /\ (forall this1 this2 formFieldId1 formFieldId2 attrs1 attrs2,
         attributesOf (render this1 formFieldId1).1 = Some attrs1 ->
         attributesOf (render this2 formFieldId2).1 = Some attrs2 ->
         Js.truthy (ISelectProps.async (props this1)) = false ->
         Js.truthy (ISelectProps.async (props this2)) = false ->
         ISelectProps.value (props this1) = ISelectProps.value (props this2) ->
         ISelectProps.options (props this1) = ISelectProps.options (props this2) ->
         ISelectProps.getOptionValue (props this1)
         = ISelectProps.getOptionValue (props this2) ->
         value attrs1 = value attrs2).
Proof.
  assert (forall raw tree getOptionValue,
             multiplicity (cosmosToReactSelect.value raw tree getOptionValue)
             = rawShape raw) as Hshape.
  { intros raw tree g. unfold cosmosToReactSelect.value.
    destruct raw as [v|l|o]; [destruct v|..]; cbn; try reflexivity;
      unfold cosmosToReactSelect.scalar;
      repeat (match goal with |- context [match ?x with _ => _ end] => destruct x end);
      reflexivity. }
  split; [exact Hshape|]. split; [reflexivity|]. split.
  - intros this fid attrs H Hsync.
    apply render_attributes in H as (_ & _ & _ & -> & _).
    unfold renderedValue. rewrite Hsync. split; [reflexivity|]. apply Hshape.
  - intros this1 this2 fid1 fid2 attrs1 attrs2 H1 H2 Hs1 Hs2 Hv Ho Hg.
    apply render_attributes in H1 as (_ & _ & _ & -> & _).
    apply render_attributes in H2 as (_ & _ & _ & -> & _).
    unfold renderedValue. rewrite Hs1, Hs2, Hv, Ho, Hg. reflexivity.
Qed.

Lemma multiplicity_follows_raw_shape_witness :
  exists attrs1 attrs2,
    attributesOf (render (constructor singleModeArrayProps) None).1 = Some attrs1
    /\ widgetMultiplicity (value attrs1) = Sequence
    /\ attributesOf (render (constructor multiModeScalarProps) None).1 = Some attrs2
    /\ widgetMultiplicity (value attrs2) = Single.
Proof.
  destruct multiplicity_follows_raw_shape as (_ & _ & Hrender & _).
  eexists. eexists.
  split; [reflexivity|]. split.
  - exact (proj2 (Hrender (constructor singleModeArrayProps) None _ eq_refl eq_refl)).
  - split; [reflexivity|].
    exact (proj2 (Hrender (constructor multiModeScalarProps) None _ eq_refl eq_refl)).
Defined.

(** C1 as stated fails: in single mode a raw array is resolved element by
    element and the widget receives a sequence. *)
Lemma multiplicity_ignores_declared_mode :
  ~ (forall this formFieldId attrs,
        attributesOf (render this formFieldId).1 = Some attrs ->
        Js.truthy (ISelectProps.async (props this)) = false ->
        fitsMode (ISelectProps.multiple (props this))
          (widgetMultiplicity (value attrs)) = true).
Proof.
  intros claim.
  specialize (claim (constructor singleModeArrayProps) None _ eq_refl eq_refl).
  vm_compute in claim. discriminate claim.
Qed.

End Rendering.

(** ** The change event *)

Section ChangeEvents.

Import Select.





End ChangeEvents.

(** ** Caching in async mode *)

Section Caching.

Import Select.

(** C3: [render] never reads [props.cacheOptions] on the way to the widget:
    the attributes it puts on [<SelectProvider>] are the same whatever the flag
    is, so in async mode with [cacheOptions: true] the widget caches nothing
    and the same query text typed twice reaches the loader twice. *)
Theorem cacheOptions_is_not_forwarded :
  (forall this formFieldId c,
      attributesOf
        (render (withProps (withCacheOptions c (props this)) this) formFieldId).1
      = attributesOf (render this formFieldId).1)
  /\ (exists attrs,
         (render (constructor asyncCachingProps) None).1
         = Wrapper None AsyncSelect attrs
         /\ loadOptions attrs = Some (handle 1))
  /\ AsyncSelectModel.loads (render (constructor asyncCachingProps) None).1 ["a"; "a"]
     = ["a"; "a"]
  /\ AsyncSelectModel.loaderCalls true ∅ ["a"; "a"] = ["a"].
Proof.
  split; [|split; [|split]].
  - intros this fid c. unfold render. cbn.
    change (needsFullWidget (withCacheOptions c (props this)))
      with (needsFullWidget (props this)).
    destruct (needsFullWidget (props this)); cbn; [|reflexivity].
    destruct (ISelectProps.defaultOptions (props this)) as [[l|[|]]|];
      reflexivity.
  - eexists. split; reflexivity.
  - reflexivity.
  - vm_compute. reflexivity.
Qed.

End Caching.

(** ** What the resolver can and cannot return *)

Section ResolverSoundness.

Import cosmosToReactSelect.

Lemma find_in_and_matches (matches : Canon.Option -> bool) l o :
  find matches l = Some o -> In o l /\ matches o = true.
Proof. apply find_some. Qed.

Lemma scalar_returns_searched_match getOptionValue raw tree o :
  scalar getOptionValue raw tree = ResOption o ->
  In o (CanonTree.searched tree) /\ matchValue getOptionValue raw o = true.
Proof.
  rewrite scalar_unfold. unfold CanonTree.searched.
  destruct (lastMatch _ _) as [x|] eqn:E.
  - intros [= <-]. apply lastMatch_Some in E as [Hin Hm].
    split; [apply in_or_app; left; exact Hin|exact Hm].
  - destruct (find _ tree) as [y|] eqn:F; [|discriminate].
    intros [= <-]. apply find_in_and_matches in F as [Hin Hm].
    split; [apply in_or_app; right; exact Hin|exact Hm].
Qed.

Lemma value_option_inversion
    (getOptionValue : option (Canon.Option -> Js.val))
    (raw : Raw) (tree : list Canon.Option) (o : Canon.Option) :
  value raw tree getOptionValue = ResOption o ->
  In o (CanonTree.searched tree)
  /\ raw = RVal (default defaultGetOptionValue getOptionValue o).
Proof.
  unfold value. set (key := default defaultGetOptionValue getOptionValue).
  intros H.
  assert (scalar key raw tree = ResOption o) as Hs.
  { destruct raw as [v|l|x]; [destruct v|..]; cbn in H;
      first [discriminate H | exact H]. }
  apply scalar_returns_searched_match in Hs as [Hin Hm].
  split; [exact Hin|].
  destruct raw as [v|l|x]; cbn in Hm; try discriminate.
  apply strict_eq_true in Hm. congruence.
Qed.

(** X1: whenever the resolver answers with a record, the raw value was a
    primitive key, the record is one of the searched entries of the option
    list (a top-level entry or an entry directly inside a top-level group), and
    its extracted key is that raw value. *)
Theorem value_returns_a_searched_entry_with_that_key
    (getOptionValue : option (Canon.Option -> Js.val))
    (raw : Raw) (tree : list Canon.Option) (o : Canon.Option) :
  value raw tree getOptionValue = ResOption o ->
  In o (CanonTree.searched tree)
  /\ raw = RVal (default defaultGetOptionValue getOptionValue o).
Proof.
  intros H. destruct (value_option_inversion _ _ _ _ H) as [Hin Hraw].
  split; [exact Hin|exact Hraw].
Qed.

Lemma value_returns_a_searched_entry_with_that_key_witness :
  In (Canon.leaf (Js.str "b") "B") (CanonTree.searched scenarioTree)
  /\ RVal (Js.str "b") = RVal (Js.str "b").
Proof.
  apply (value_returns_a_searched_entry_with_that_key None
           (RVal (Js.str "b")) scenarioTree (Canon.leaf (Js.str "b") "B")).
  reflexivity.
Defined.

(** X2: for a raw key that is neither [null] nor [undefined] the resolver
    answers [undefined] exactly if no searched entry has that key; entries
    nested deeper than one level are not searched, so a key that only occurs
    there is unmatched. *)
Theorem value_undefined_iff_no_searched_key
    (getOptionValue : option (Canon.Option -> Js.val))
    (v : Js.val) (tree : list Canon.Option) :
  v <> Js.null -> v <> Js.undefined ->
  (value (RVal v) tree getOptionValue = ResUndefined
   <-> Forall (fun y => default defaultGetOptionValue getOptionValue y <> v)
         (CanonTree.searched tree)).
Proof.
  intros Hn Hu. unfold value.
  set (key := default defaultGetOptionValue getOptionValue).
  rewrite valueWith_key by assumption. split.
  - intros H. apply List.Forall_forall. intros y Hy Hkey.
    assert (matchValue key (RVal v) y = true) as Hm by (apply matchValue_key, Hkey).
    rewrite scalar_unfold in H. unfold CanonTree.searched in Hy.
    destruct (lastMatch _ _) as [x|] eqn:E; [discriminate|].
    apply lastMatch_None in E. rewrite List.Forall_forall in E.
    apply in_app_or in Hy as [Hy|Hy].
    + rewrite (E _ Hy) in Hm. discriminate.
    + destruct (find _ tree) as [z|] eqn:F; [discriminate|].
      rewrite (find_none _ _ F _ Hy) in Hm. discriminate.
  - intros H. apply scalar_unmatched.
    revert H. apply List.Forall_impl. intros y Hy. cbn. apply strict_eq_false, Hy.
Qed.

Lemma value_undefined_iff_no_searched_key_witness :
  value (RVal (Js.str "deep"))
    [Canon.group "G" [Canon.group "H" [Canon.leaf (Js.str "deep") "D"]]] None
  = ResUndefined.
Proof.
  apply (value_undefined_iff_no_searched_key None (Js.str "deep")
           [Canon.group "G" [Canon.group "H" [Canon.leaf (Js.str "deep") "D"]]]).
  - discriminate.
  - discriminate.
  - repeat constructor; discriminate.
Defined.

(** X3: extracting keys undoes resolution.  If a raw key resolves to a
    record, [oneOrMore] of that record is the raw key again; if every element
    of a raw sequence of keys resolves to a record, [oneOrMore] of the records
    is the raw sequence of keys. *)
Theorem oneOrMore_of_resolved_is_raw
    (getOptionValue : option (Canon.Option -> Js.val))
    (tree : list Canon.Option) :
  (forall v o,
      value (RVal v) tree getOptionValue = ResOption o ->
      oneOrMore (SelOne o) getOptionValue = NvKey v)
  /\ (forall vs os,
         value (RArray (map RVal vs)) tree getOptionValue
         = ResArray (map ResOption os) ->
         oneOrMore (SelMany os) getOptionValue = NvKeys vs).
Proof.
  assert (forall v o,
             value (RVal v) tree getOptionValue = ResOption o ->
             default defaultGetOptionValue getOptionValue o = v) as Hone.
  { intros v o H.
    apply value_option_inversion in H as [_ H].
    congruence. }
  split.
  - intros v o H. cbn. f_equal. apply Hone, H.
  - intros vs os H. cbn. f_equal.
    unfold value in H. cbn in H. injection H as H.
    rewrite map_map in H.
    revert os H. induction vs as [|v vs IH]; intros [|o os] H;
      try discriminate; [reflexivity|].
    cbn in H. injection H as Ho Hrest. cbn. f_equal.
    + apply Hone. exact Ho.
    + apply IH. exact Hrest.
Qed.

Lemma oneOrMore_of_resolved_is_raw_witness :
  oneOrMore
    (SelMany [Canon.leaf (Js.str "b") "B"; Canon.leaf (Js.str "a") "A"]) None
  = NvKeys [Js.str "b"; Js.str "a"].
Proof.
  apply (proj2 (oneOrMore_of_resolved_is_raw None scenarioTree)
           [Js.str "b"; Js.str "a"]).
  reflexivity.
Defined.

End ResolverSoundness.

(** ** Normalisation followed by resolution *)

Section NormaliseThenResolve.

Import cosmosToReactSelect.









End NormaliseThenResolve.

(** ** The three outcomes of [render] *)

Section RenderOutcomes.

Import Select.

Local Ltac render_cases this :=
  unfold render;
  destruct (needsFullWidget (props this)) eqn:Hfull; cbn;
  [destruct (ISelectProps.defaultOptions (props this)) as [[dl|[|]]|] eqn:Hdef; cbn|].

(** X5: [render] fails with a [TypeError] exactly if the full widget is
    needed and [defaultOptions] is the boolean [true] (which the props'
    documentation allows): [cosmosToReactSelect.options] then calls [map] on a
    boolean.  The instance is left as it was. *)
Theorem render_throws_iff_defaultOptions_true this formFieldId :
  ((render this formFieldId).1 = TypeError
   <-> needsFullWidget (props this) = true
       /\ ISelectProps.defaultOptions (props this) = Some (inr true))
  /\ ((render this formFieldId).1 = TypeError ->
      (render this formFieldId).2 = this).
Proof.
  render_cases this; (split; [split|]); try discriminate; try tauto;
    try (intros [? ?]; discriminate); intros [? ?]; congruence.
Qed.

Lemma render_throws_iff_defaultOptions_true_witness :
  (render
     (constructor
        (ISelectProps.mk None None [] (RVal Js.undefined) (RVal Js.undefined)
           None None None (Some true) None (Some false) None None None None
           (Some (handle 1)) None None (Some (inr true)) None None None None None))
     None).1 = TypeError.
Proof.
  apply (proj1 (render_throws_iff_defaultOptions_true _ None)).
  split; reflexivity.
Defined.

(** X6: [render] takes the fast path, handing the props unchanged to
    [SimpleSelect] and leaving the instance alone, exactly if none of [async],
    [searchable], [multiple], [customOptionRenderer], [customValueRenderer] and
    [getOptionValue] is set; on that path [defaultOptions: true] does no
    harm. *)
Theorem render_simple_iff_no_flag this formFieldId :
  (Js.truthy (ISelectProps.async (props this)) = false
   /\ Js.truthy (ISelectProps.searchable (props this)) = false
   /\ Js.truthy (ISelectProps.multiple (props this)) = false
   /\ ISelectProps.customOptionRenderer (props this) = None
   /\ ISelectProps.customValueRenderer (props this) = None
   /\ ISelectProps.getOptionValue (props this) = None)
  <-> render this formFieldId = (SimpleSelect (props this), this).
Proof.
  assert (needsFullWidget (props this) = false
          <-> Js.truthy (ISelectProps.async (props this)) = false
              /\ Js.truthy (ISelectProps.searchable (props this)) = false
              /\ Js.truthy (ISelectProps.multiple (props this)) = false
              /\ ISelectProps.customOptionRenderer (props this) = None
              /\ ISelectProps.customValueRenderer (props this) = None
              /\ ISelectProps.getOptionValue (props this) = None) as Hflags.
  { unfold needsFullWidget.
    destruct (Js.truthy (ISelectProps.async (props this))),
      (Js.truthy (ISelectProps.searchable (props this))),
      (Js.truthy (ISelectProps.multiple (props this))),
      (ISelectProps.customOptionRenderer (props this)),
      (ISelectProps.customValueRenderer (props this)),
      (ISelectProps.getOptionValue (props this)); cbn;
      split; try discriminate; try tauto;
      intros (? & ? & ? & ? & ? & ?); discriminate. }
  rewrite <- Hflags. clear Hflags.
  render_cases this; split; try discriminate; try reflexivity; intros [=].
Qed.

Lemma render_simple_iff_no_flag_witness :
  render (constructor ISelectProps.defaults) None
  = (SimpleSelect ISelectProps.defaults, constructor ISelectProps.defaults).
Proof.
  apply (proj1 (render_simple_iff_no_flag (constructor ISelectProps.defaults) None)).
  repeat split.
Defined.

(** X7: the widget is react-select's async one exactly in async mode, and
    then the caller's [value] reaches it untouched (no lookup in the options),
    while the options are normalised in either mode. *)
Theorem async_value_is_passed_through this formFieldId style provider attrs this' :
  render this formFieldId = (Wrapper style provider attrs, this') ->
  (provider = AsyncSelect <-> Js.truthy (ISelectProps.async (props this)) = true)
  /\ (Js.truthy (ISelectProps.async (props this)) = true ->
      value attrs = Passed (ISelectProps.value (props this)))
  /\ options attrs = cosmosToReactSelect.options (ISelectProps.options (props this))
  /\ style = ISelectProps.style (props this).
Proof.
  render_cases this; intros H; try discriminate;
    injection H as <- <- <- <-; cbn; unfold renderedValue;
    destruct (Js.truthy (ISelectProps.async (props this)));
    repeat split; try discriminate; auto.
Qed.

Lemma async_value_is_passed_through_witness :
  exists attrs,
    (render (constructor asyncCachingProps) None).1
    = Wrapper None AsyncSelect attrs
    /\ value attrs = Passed (RVal Js.undefined).
Proof.
  eexists. split; [reflexivity|].
  refine (proj1 (proj2 (async_value_is_passed_through
                          (constructor asyncCachingProps) None _ _ _ _ eq_refl))
            eq_refl).
Defined.

(** X8: rendering twice in a row is the same as rendering once: the second
    [render] returns the same output and leaves the instance as the first one
    left it.  Of the instance, [render] changes [componentOverrides] only. *)
Theorem render_is_idempotent this formFieldId :
  render (render this formFieldId).2 formFieldId
  = ((render this formFieldId).1, (render this formFieldId).2)
  /\ props (render this formFieldId).2 = props this
  /\ menuIsOpen (render this formFieldId).2 = menuIsOpen this
  /\ forceUpdates (render this formFieldId).2 = forceUpdates this
  /\ scrollListener (render this formFieldId).2 = scrollListener this.
Proof.
  split.
  - render_cases this; rewrite ?Hfull, ?Hdef; cbn; try reflexivity;
      destruct (ISelectProps.customOptionRenderer (props this)),
        (ISelectProps.customValueRenderer (props this)); reflexivity.
  - render_cases this; repeat split.
Qed.

(** X9: an override installed by [customOptionRenderer] stays: after a
    render with the prop set to [r], a later render of the same instance under
    props without [customOptionRenderer] still hands the widget the [Option]
    component built from [r]. *)
Theorem option_override_is_never_reset
    this formFieldId r nextProps nextFormFieldId attrs :
  ISelectProps.customOptionRenderer (props this) = Some r ->
  ISelectProps.defaultOptions (props this) <> Some (inr true) ->
  ISelectProps.customOptionRenderer nextProps = None ->
  attributesOf
    (render (withProps nextProps (render this formFieldId).2) nextFormFieldId).1
  = Some attrs ->
  Option (components attrs) = Some r.
Proof.
  intros Hr Hdef Hnone.
  assert (Option (componentOverrides (render this formFieldId).2) = Some r) as Hinst.
  { unfold render.
    assert (needsFullWidget (props this) = true) as ->.
    { unfold needsFullWidget. rewrite Hr. cbn.
      repeat (rewrite ?orb_true_r, ?orb_true_l). reflexivity. }
    cbn. destruct (ISelectProps.defaultOptions (props this)) as [[dl|[|]]|];
      cbn; rewrite ?Hr; try reflexivity. congruence. }
  set (this1 := (render this formFieldId).2) in *.
  unfold render. cbn.
  destruct (needsFullWidget nextProps); cbn; [|discriminate].
  destruct (ISelectProps.defaultOptions nextProps) as [[dl|[|]]|]; cbn;
    intros H; try discriminate; injection H as <-; cbn; rewrite Hnone; exact Hinst.
Qed.

Lemma option_override_is_never_reset_witness :
  exists attrs,
    attributesOf
      (render
         (withProps multiModeScalarProps
            (render
               (constructor
                  (ISelectProps.mk None None [] (RVal Js.undefined)
                     (RVal Js.undefined) None None None None None (Some false)
                     None None (Some (handle 3)) None None None None None None
                     None None None None))
               None).2)
         None).1 = Some attrs
    /\ Option (components attrs) = Some (handle 3).
Proof.
  eexists. split; [reflexivity|].
  apply (option_override_is_never_reset
           (constructor
              (ISelectProps.mk None None [] (RVal Js.undefined)
                 (RVal Js.undefined) None None None None None (Some false)
                 None None (Some (handle 3)) None None None None None None
                 None None None None))
           None (handle 3) multiModeScalarProps None).
  - reflexivity.
  - discriminate.
  - reflexivity.
  - reflexivity.
Defined.

(** X10: the [key] attribute counts the raw values: for a raw array of n
    elements it is n in sync and in async mode (unmatched elements count too),
    and for [null] or [undefined] it is 0. *)
Theorem key_counts_raw_values this formFieldId attrs :
  attributesOf (render this formFieldId).1 = Some attrs ->
  (forall l, ISelectProps.value (props this) = RArray l ->
             key attrs = Js.num (Z.of_nat (length l)))
  /\ (ISelectProps.value (props this) = RVal Js.null
      \/ ISelectProps.value (props this) = RVal Js.undefined ->
      key attrs = Js.num 0).
Proof.
  render_cases this; intros H; try discriminate; injection H as <-; cbn;
    unfold renderedValue;
    (split; [intros l Hv|intros [Hv|Hv]]); rewrite Hv;
    destruct (Js.truthy (ISelectProps.async (props this))); cbn;
    rewrite ?length_map; reflexivity.
Qed.

Lemma key_counts_raw_values_witness :
  exists attrs,
    attributesOf (render (constructor singleModeArrayProps) None).1 = Some attrs
    /\ key attrs = Js.num 1.
Proof.
  eexists. split; [reflexivity|].
  apply (proj1 (key_counts_raw_values (constructor singleModeArrayProps) None _
                  eq_refl) [RVal (Js.str "a")]).
  reflexivity.
Defined.

End RenderOutcomes.

(** ** Life cycle of the scroll listener *)

Section LifeCycle.

Import Select.

Lemma run_without_listener signals : forall this,
  scrollListener this = false ->
  forceUpdates (run this signals) = forceUpdates this.
Proof.
  unfold run. induction signals as [|s rest IH]; intros this Hl; [reflexivity|].
  cbn [fold_left]. rewrite IH by (rewrite deliver_scrollListener; exact Hl).
  destruct s; cbn; try reflexivity. rewrite Hl. reflexivity.
Qed.

(** X11: once [componentWillUnmount] has removed the listener, no sequence
    of signals calls [forceUpdate] any more, whether the menu is open or not;
    the same holds before [componentDidMount] has registered it. *)
Theorem no_reposition_without_listener this props signals :
  forceUpdates (run (componentWillUnmount this) signals) = forceUpdates this
  /\ forceUpdates (run (constructor props) signals) = 0
  /\ scrollListener (componentWillUnmount (componentDidMount this)) = false.
Proof.
  split; [|split].
  - apply (run_without_listener signals (componentWillUnmount this)). reflexivity.
  - apply (run_without_listener signals (constructor props)). reflexivity.
  - unfold componentDidMount.
    destruct (Js.truthy (ISelectProps.defaultMenuOpen (Select.props this)));
      reflexivity.
Qed.

Lemma run_scrolls n : forall this,
  scrollListener this = true ->
  forceUpdates (run this (repeat Scroll n))
  = if menuIsOpen this then forceUpdates this + n else forceUpdates this.
Proof.
  unfold run. induction n as [|n IH]; intros this Hl; cbn [repeat fold_left].
  - destruct (menuIsOpen this); lia.
  - rewrite IH by (rewrite deliver_scrollListener; exact Hl).
    cbn. rewrite Hl. unfold handleScroll.
    destruct (menuIsOpen this) eqn:E; cbn; rewrite ?E; lia.
Qed.

(** X12: [defaultMenuOpen] makes the menu count as open from the start.  A
    freshly mounted instance that receives n scroll events before any menu
    signal has called [forceUpdate] 1 + n times if [defaultMenuOpen] is truthy
    (once at mount, once per scroll) and not at all otherwise. *)
Theorem scrolls_after_mount props n :
  forceUpdates (run (componentDidMount (constructor props)) (repeat Scroll n))
  = if Js.truthy (ISelectProps.defaultMenuOpen props) then 1 + n else 0.
Proof.
  rewrite run_scrolls.
  - unfold componentDidMount, constructor. cbn.
    destruct (Js.truthy (ISelectProps.defaultMenuOpen props)) eqn:E; cbn;
      rewrite ?E; reflexivity.
  - unfold componentDidMount, constructor. cbn.
    destruct (Js.truthy (ISelectProps.defaultMenuOpen props)); reflexivity.
Qed.

(** X13: over any run the menu state is decided by the last [onMenuOpen] or
    [onMenuClose] signal (the initial state if there is none); scroll events
    never change it, and no signal changes the props, the component overrides
    or the registration of the listener. *)
Theorem menu_state_after_run this signals :
  menuIsOpen (run this signals) = menuAfter (menuIsOpen this) signals
  /\ Select.props (run this signals) = Select.props this
  /\ componentOverrides (run this signals) = componentOverrides this
  /\ scrollListener (run this signals) = scrollListener this.
Proof.
  assert (forall this s,
             menuIsOpen (deliver this s)
             = match s with
               | MenuOpen => true
               | MenuClose => false
               | Scroll => menuIsOpen this
               end
             /\ Select.props (deliver this s) = Select.props this
             /\ componentOverrides (deliver this s) = componentOverrides this)
    as Hstep.
  { intros this0 s. destruct s; cbn; repeat split;
      unfold handleScroll;
      destruct (scrollListener this0), (menuIsOpen this0) eqn:E;
      cbn; rewrite ?E; reflexivity. }
  unfold run, menuAfter. revert this.
  induction signals as [|s rest IH]; intros this; [repeat split|].
  cbn [fold_left]. destruct (IH (deliver this s)) as (-> & -> & -> & ->).
  destruct (Hstep this s) as (-> & -> & ->).
  rewrite deliver_scrollListener. repeat split.
Qed.

End LifeCycle.

(** ** The [control] styles *)

Section ControlStylesFacts.

Import ControlStyles.

Local Ltac differ := first [congruence | discriminate].

Local Ltac lookups :=
  repeat first
    [ rewrite lookup_insert_eq
    | rewrite (lookup_insert_ne _ "&:focus") by differ
    | rewrite (lookup_insert_ne _ "&:hover") by differ
    | rewrite (lookup_insert_ne _ "boxShadow") by differ
    | rewrite (lookup_insert_ne _ "borderColor") by differ ].

Lemma control_without_error hasError borderError provided isFocused :
  Js.truthy hasError = false ->
  control hasError borderError provided isFocused = provided.
Proof. unfold control. intros ->. reflexivity. Qed.

(** X14: without [hasError] the [control] styles are react-select's own,
    unchanged.  With it, [borderColor] is the error colour whatever was
    provided, [boxShadow], ['&:hover'] and ['&:focus'] are set, and every other
    property keeps the value react-select provided. *)
Theorem control_keeps_other_properties
    (hasError : option bool) (borderError : string)
    (provided : gmap string StyleValue) (isFocused : bool) :
  (Js.truthy hasError = false ->
   control hasError borderError provided isFocused = provided)
  /\ (Js.truthy hasError = true ->
      control hasError borderError provided isFocused !! "borderColor"
      = Some (Text borderError)
      /\ (forall k, k ∉ errorKeys ->
                    control hasError borderError provided isFocused !! k
                    = provided !! k)
      /\ dom (control hasError borderError provided isFocused)
         = errorKeys ∪ dom provided).
Proof.
  split; [apply control_without_error|].
  intros He. unfold control. rewrite He. split; [|split].
  - rewrite !lookup_insert_ne by discriminate. apply lookup_insert_eq.
  - intros k Hk. unfold errorKeys in Hk.
    apply not_elem_of_union in Hk as [Hk H4].
    apply not_elem_of_union in Hk as [Hk H3].
    apply not_elem_of_union in Hk as [H1 H2].
    rewrite not_elem_of_singleton in H1, H2, H3, H4.
    lookups. reflexivity.
  - unfold errorKeys. rewrite !dom_insert_L.
    apply set_eq. intros k.
    rewrite !elem_of_union, !elem_of_singleton. tauto.
Qed.

Lemma control_keeps_other_properties_witness :
  control (Some true) "#f00" {["borderColor" := Text "#ccc"; "minHeight" := Text "44px"]}
    false !! "minHeight" = Some (Text "44px")
  /\ control (Some true) "#f00"
       {["borderColor" := Text "#ccc"; "minHeight" := Text "44px"]} false
     !! "borderColor" = Some (Text "#f00").
Proof.
  destruct (control_keeps_other_properties (Some true) "#f00"
              {["borderColor" := Text "#ccc"; "minHeight" := Text "44px"]} false)
    as [_ Herr].
  destruct (Herr eq_refl) as (Hborder & Hother & _).
  split.
  - rewrite Hother; [reflexivity|]. unfold errorKeys. vm_compute. intros H. discriminate H.
  - exact Hborder.
Defined.

(** X15: applying the [control] styles to their own result changes nothing,
    and the focus state shows in [boxShadow] only. *)
Theorem control_is_idempotent
    (hasError : option bool) (borderError : string)
    (provided : gmap string StyleValue) (isFocused : bool) :
  control hasError borderError
    (control hasError borderError provided isFocused) isFocused
  = control hasError borderError provided isFocused
  /\ (forall k, k <> "boxShadow" ->
                control hasError borderError provided true !! k
                = control hasError borderError provided false !! k).
Proof.
  unfold control. destruct (Js.truthy hasError); [|split; reflexivity]. split.
  - apply map_eq. intros k.
    destruct (decide (k = "&:focus")) as [->|H1];
      [|destruct (decide (k = "&:hover")) as [->|H2];
        [|destruct (decide (k = "boxShadow")) as [->|H3];
          [|destruct (decide (k = "borderColor")) as [->|H4]]]];
      lookups; reflexivity.
  - intros k Hk.
    destruct (decide (k = "&:focus")) as [->|H1];
      [|destruct (decide (k = "&:hover")) as [->|H2]];
      lookups; reflexivity.
Qed.

Lemma control_is_idempotent_witness :
  control (Some true) "#f00" ∅ true !! "borderColor"
  = control (Some true) "#f00" ∅ false !! "borderColor".
Proof.
  apply (proj2 (control_is_idempotent (Some true) "#f00" ∅ true)).
  discriminate.
Defined.

End ControlStylesFacts.

(** ** The alert *)

Section AlertFacts.

Import Alert.

Lemma deliver_props this s : props (deliver this s) = props this.
Proof.
  destruct s; cbn; try reflexivity.
  - destruct (render this) as [e|]; [|reflexivity].
    destruct (mounted this && closeButton e); reflexivity.
  - destruct (pending this); reflexivity.
Qed.

Lemma run_props signals : forall this, props (run this signals) = props this.
Proof.
  unfold run. induction signals as [|s rest IH]; intros this; [reflexivity|].
  cbn [fold_left]. rewrite IH. apply deliver_props.
Qed.

Lemma render_None_iff this : render this = None <-> visible this = false.
Proof. unfold render. destruct (visible this); split; congruence. Qed.

Lemma deliver_stays_invisible this s :
  visible this = false -> visible (deliver this s) = false.
Proof.
  intros H. destruct s; cbn.
  - unfold render. rewrite H. exact H.
  - destruct (pending this); [reflexivity|exact H].
  - exact H.
Qed.

(** X16: a dismissed alert stays dismissed.  [render] returns [null] exactly
    when [state.visible] is false, and once it is false no click, timeout or
    unmount makes the alert show again. *)
Theorem alert_stays_dismissed this signals :
  (render this = None <-> visible this = false)
  /\ (visible this = false ->
      visible (run this signals) = false /\ render (run this signals) = None).
Proof.
  split; [apply render_None_iff|].
  intros H.
  assert (visible (run this signals) = false) as Hrun.
  { unfold run. revert this H.
    induction signals as [|s rest IH]; intros this H; [exact H|].
    cbn [fold_left]. apply IH, deliver_stays_invisible, H. }
  split; [exact Hrun|]. apply render_None_iff, Hrun.
Qed.

Lemma alert_stays_dismissed_witness :
  render (lifetime timedAlertProps [Click; TimerFires; Click]) = None.
Proof.
  apply (proj2 (alert_stays_dismissed (lifetime timedAlertProps [Click])
                  [TimerFires; Click]) eq_refl).
Defined.

(** What is still to come: one dismissal by click while the alert shows, one
    by the timeout while it is pending. *)
Lemma deliver_budget this s :
  length (dismissCalls (deliver this s))
  + Nat.b2n (visible (deliver this s)) + Nat.b2n (pending (deliver this s))
  <= length (dismissCalls this) + Nat.b2n (visible this) + Nat.b2n (pending this).
Proof.
  destruct s; cbn.
  - unfold render. destruct (visible this) eqn:Hv; [|rewrite Hv; lia].
    destruct (mounted this && _); [|rewrite Hv; lia].
    cbn. destruct (onDismiss (props this)); rewrite ?length_app; cbn; lia.
  - destruct (pending this) eqn:Hp; [|rewrite Hp; lia].
    cbn. destruct (onDismiss (props this)), (visible this);
      rewrite ?length_app; cbn; lia.
  - destruct (timer this), (pending this); cbn; lia.
Qed.

Lemma deliver_calls_handler this s :
  Forall (fun h => onDismiss (props this) = Some h) (dismissCalls this) ->
  Forall (fun h => onDismiss (props this) = Some h) (dismissCalls (deliver this s)).
Proof.
  intros H. destruct s; cbn.
  - destruct (render this) as [e|]; [|exact H].
    destruct (mounted this && closeButton e); [|exact H].
    cbn. destruct (onDismiss (props this)) eqn:E; [|exact H].
    apply Forall_app. split; [exact H|]. constructor; [reflexivity|constructor].
  - destruct (pending this); [|exact H].
    cbn. destruct (onDismiss (props this)) eqn:E; [|exact H].
    apply Forall_app. split; [exact H|]. constructor; [reflexivity|constructor].
  - exact H.
Qed.

(** X17: over its whole life an alert calls [onDismiss] at most twice (once
    for a click on the close button, once for the timeout), it calls nothing
    but the [onDismiss] it was given, and nothing at all when [onDismiss] is
    not a function. *)
Theorem onDismiss_at_most_twice (p : Props) (signals : list Signal) :
  length (dismissCalls (lifetime p signals)) <= 2
  /\ Forall (fun h => onDismiss p = Some h) (dismissCalls (lifetime p signals))
  /\ (onDismiss p = None -> dismissCalls (lifetime p signals) = []).
Proof.
  unfold lifetime.
  set (start := componentDidMount (constructor (withDefaults p))).
  assert (forall this,
             length (dismissCalls (run this signals))
             + Nat.b2n (visible (run this signals))
             + Nat.b2n (pending (run this signals))
             <= length (dismissCalls this) + Nat.b2n (visible this)
                + Nat.b2n (pending this)) as Hbudget.
  { unfold run. induction signals as [|s rest IH]; intros this; [cbn; lia|].
    cbn [fold_left]. etransitivity; [apply IH|apply deliver_budget]. }
  assert (forall this o,
             onDismiss (props this) = o ->
             Forall (fun h => o = Some h) (dismissCalls this) ->
             Forall (fun h => o = Some h) (dismissCalls (run this signals)))
    as Hcalls.
  { clear Hbudget. unfold run.
    induction signals as [|s rest IH]; intros this o Ho H; [exact H|].
    cbn [fold_left]. apply IH; [rewrite deliver_props; exact Ho|].
    subst o. apply deliver_calls_handler, H. }
  assert (props start = withDefaults p /\ dismissCalls start = []
          /\ visible start = true) as (Hprops & Hnil & Hvis).
  { unfold start, componentDidMount. cbn.
    destruct (dismissAfterSeconds p) as [z|]; [destruct (negb (z =? 0)%Z)|];
      repeat split. }
  assert (Forall (fun h => onDismiss p = Some h) (dismissCalls (run start signals)))
    as Hall.
  { apply (Hcalls start); [rewrite Hprops; reflexivity|].
    rewrite Hnil. constructor. }
  split; [|split].
  - specialize (Hbudget start). rewrite Hnil, Hvis in Hbudget. cbn in Hbudget.
    destruct (pending start), (visible (run start signals)),
      (pending (run start signals)); cbn in Hbudget; lia.
  - exact Hall.
  - intros Hnone. destruct (dismissCalls (run start signals)) as [|h l];
      [reflexivity|].
    apply Forall_cons in Hall as [Hh _]. congruence.
Qed.

Lemma onDismiss_at_most_twice_witness :
  dismissCalls
    (lifetime
       (mkProps None None None None None None None None None (Some 5%Z))
       [Click; TimerFires]) = [].
Proof.
  apply (proj2 (proj2 (onDismiss_at_most_twice
                         (mkProps None None None None None None None None None
                            (Some 5%Z))
                         [Click; TimerFires]))).
  reflexivity.
Defined.

(** X18: closing the alert by hand does not cancel the timeout.  With an
    [onDismiss] handler, a nonzero [dismissAfterSeconds] and the close button
    shown, a click followed by the timeout calls [onDismiss] twice; if the
    alert is unmounted in between, the timeout is cleared and the handler runs
    once. *)
Theorem click_does_not_cancel_the_timeout (p : Props) (f : Handle) :
  onDismiss p = Some f ->
  truthyNumber (dismissAfterSeconds p) = true ->
  dismissible p <> Some false ->
  dismissCalls (lifetime p [Click; TimerFires]) = [f; f]
  /\ dismissCalls (lifetime p [Click; Unmount; TimerFires]) = [f]
  /\ dismissCalls (lifetime p [TimerFires; Click]) = [f].
Proof.
  intros Hf Ht Hd. unfold lifetime, run, componentDidMount. cbn.
  destruct (dismissAfterSeconds p) as [z|]; [|discriminate].
  cbn in Ht. rewrite Ht. cbn. unfold render. cbn.
  destruct (dismissible p) as [[|]|]; cbn; rewrite ?Hf; cbn; rewrite ?Hf;
    try congruence; repeat split.
Qed.

Lemma click_does_not_cancel_the_timeout_witness :
  dismissCalls (lifetime timedAlertProps [Click; TimerFires])
  = [handle 7; handle 7].
Proof.
  apply (proj1 (click_does_not_cancel_the_timeout timedAlertProps (handle 7)
                  eq_refl eq_refl ltac:(discriminate))).
Defined.

End AlertFacts.

Section AlertTimer.

Import Alert.

Lemma run_app this s1 s2 : run this (s1 ++ s2) = run (run this s1) s2.
Proof. unfold run. apply fold_left_app. Qed.

Lemma deliver_no_timer this s :
  timer this = None -> pending this = false ->
  timer (deliver this s) = None /\ pending (deliver this s) = false.
Proof.
  intros Ht Hp. destruct s; cbn.
  - destruct (render this) as [e|]; [|auto].
    destruct (mounted this && closeButton e); auto.
  - rewrite Hp. auto.
  - rewrite Ht. auto.
Qed.

Lemma deliver_never_dismissed this s :
  dismissible (props this) = Some false ->
  pending this = false ->
  deliver this s = this
  \/ (s = Unmount /\ visible (deliver this s) = visible this
      /\ dismissCalls (deliver this s) = dismissCalls this).
Proof.
  intros Hd Hp. destruct s; cbn.
  - left. unfold render. rewrite Hd. cbn.
    destruct (visible this); [rewrite andb_false_r|]; reflexivity.
  - left. rewrite Hp. reflexivity.
  - right. auto.
Qed.

(** X19: a [dismissAfterSeconds] of 0, like a missing one, registers no
    timeout, so the alert is never dismissed on its own; if it is not
    dismissible either, it stays visible for good and [onDismiss] is never
    called. *)
Theorem zero_seconds_never_dismisses (p : Props) (signals : list Signal) :
  truthyNumber (dismissAfterSeconds p) = false ->
  timer (lifetime p signals) = None
  /\ pending (lifetime p signals) = false
  /\ (dismissible p = Some false ->
      visible (lifetime p signals) = true
      /\ dismissCalls (lifetime p signals) = []).
Proof.
  intros Hz. unfold lifetime.
  set (start := componentDidMount (constructor (withDefaults p))).
  assert (timer start = None /\ pending start = false /\ visible start = true
          /\ dismissCalls start = [] /\ props start = withDefaults p)
    as (Ht & Hp & Hv & Hc & Hprops).
  { unfold start, componentDidMount. cbn.
    destruct (dismissAfterSeconds p) as [z|]; [|repeat split].
    cbn in Hz. rewrite Hz. repeat split. }
  assert (forall this,
             timer this = None -> pending this = false ->
             timer (run this signals) = None /\ pending (run this signals) = false)
    as Hrun.
  { unfold run. induction signals as [|s rest IH]; intros this H1 H2; [auto|].
    cbn [fold_left]. destruct (deliver_no_timer this s H1 H2) as [H3 H4].
    apply IH; assumption. }
  destruct (Hrun start Ht Hp) as [Ht' Hp']. split; [exact Ht'|]. split; [exact Hp'|].
  intros Hd. rewrite <- Hv, <- Hc. clear Hv Hc Hrun Ht' Hp'.
  assert (dismissible (props start) = Some false) as Hds
    by (rewrite Hprops; cbn; rewrite Hd; reflexivity).
  clearbody start. revert start Ht Hp Hprops Hds. unfold run.
  induction signals as [|s rest IH]; intros this Ht Hp Hprops Hd'; [auto|].
  cbn [fold_left].
  destruct (deliver_no_timer this s Ht Hp) as [Ht1 Hp1].
  assert (props (deliver this s) = withDefaults p) as Hprops1
    by (rewrite deliver_props; exact Hprops).
  assert (dismissible (props (deliver this s)) = Some false) as Hd1
    by (rewrite deliver_props; exact Hd').
  destruct (IH (deliver this s) Ht1 Hp1 Hprops1 Hd1) as [-> ->].
  destruct (deliver_never_dismissed this s Hd' Hp) as [->|(_ & -> & ->)]; auto.
Qed.

Lemma zero_seconds_never_dismisses_witness :
  visible
    (lifetime
       (mkProps None None None None None None None (Some false)
          (Some (handle 7)) (Some 0%Z))
       [TimerFires; Click; TimerFires]) = true.
Proof.
  apply (proj2 (proj2 (zero_seconds_never_dismisses
                         (mkProps None None None None None None None (Some false)
                            (Some (handle 7)) (Some 0%Z))
                         [TimerFires; Click; TimerFires] eq_refl))).
  reflexivity.
Defined.

Lemma deliver_timer_registered this s :
  (pending this = true -> is_Some (timer this)) ->
  pending (deliver this s) = true -> is_Some (timer (deliver this s)).
Proof.
  intros H. destruct s; cbn.
  - destruct (render this) as [e|]; [|exact H].
    destruct (mounted this && closeButton e); exact H.
  - destruct (pending this) eqn:E; cbn; [discriminate|].
    rewrite E. discriminate.
  - destruct (timer this); [discriminate|exact H].
Qed.

Lemma deliver_after_unmount this s :
  mounted this = false -> pending this = false ->
  mounted (deliver this s) = false /\ pending (deliver this s) = false
  /\ visible (deliver this s) = visible this
  /\ dismissCalls (deliver this s) = dismissCalls this.
Proof.
  intros Hm Hp. destruct s; cbn.
  - rewrite Hm. destruct (render this); auto.
  - rewrite Hp. auto.
  - rewrite Hp. destruct (timer this); auto.
Qed.

(** X20: unmounting ends the alert's activity.  Whatever happened before,
    after [componentWillUnmount] no click or timeout changes [visible] or calls
    [onDismiss] again: the timeout the instance registered is cleared. *)
Theorem nothing_happens_after_unmount (p : Props) (before after : list Signal) :
  visible (lifetime p (before ++ Unmount :: after))
  = visible (lifetime p before)
  /\ dismissCalls (lifetime p (before ++ Unmount :: after))
     = dismissCalls (lifetime p before)
  /\ pending (lifetime p (before ++ Unmount :: after)) = false.
Proof.
  unfold lifetime. rewrite run_app.
  set (start := componentDidMount (constructor (withDefaults p))).
  assert (pending (run start before) = true -> is_Some (timer (run start before)))
    as Hreg.
  { assert (pending start = true -> is_Some (timer start)) as Hstart.
    { unfold start, componentDidMount. cbn.
      destruct (dismissAfterSeconds p) as [z|]; [destruct (negb (z =? 0)%Z)|];
        cbn; eauto; discriminate. }
    clearbody start. revert start Hstart. unfold run.
    induction before as [|s rest IH]; intros this H; [exact H|].
    cbn [fold_left]. apply IH, deliver_timer_registered, H. }
  set (this := run start before) in *. clearbody this.
  change (run this (Unmount :: after))
    with (run (componentWillUnmount this) after).
  assert (mounted (componentWillUnmount this) = false
          /\ pending (componentWillUnmount this) = false) as [Hm Hp].
  { cbn. split; [reflexivity|].
    destruct (timer this) as [t|] eqn:Ht; [reflexivity|].
    destruct (pending this); [|reflexivity].
    destruct (Hreg eq_refl) as [x Hx]. discriminate. }
  change (visible this) with (visible (componentWillUnmount this)).
  change (dismissCalls this) with (dismissCalls (componentWillUnmount this)).
  generalize dependent (componentWillUnmount this). clear Hreg this.
  unfold run. induction after as [|s rest IH]; intros u Hm Hp; [auto|].
  cbn [fold_left].
  destruct (deliver_after_unmount u s Hm Hp) as (Hm1 & Hp1 & <- & <-).
  apply IH; assumption.
Qed.

(** X21: with the default props filled in, a visible alert always renders
    with an appearance ([appearance] if given, else the deprecated [type], else
    ['default']); an icon is shown only for a non-empty [icon] name and always
    has a colour from [iconColorMap]; the close button is there unless
    [dismissible] is false; the read-more link is there exactly for a
    non-empty [link]. *)
Theorem visible_alert_rendering (p : Props) (this : Instance) :
  props this = withDefaults p ->
  visible this = true ->
  exists element,
    render this = Some element
    /\ elementAppearance element
       = Some (match appearance p, type p with
               | Some a, _ => a
               | None, Some t => t
               | None, None => default
               end)
    /\ (forall name colour,
           elementIcon element = Some (name, colour) ->
           icon p = Some name /\ name <> EmptyString /\ is_Some colour)
    /\ (closeButton element = false <-> dismissible p = Some false)
    /\ (is_Some (readMore element) <-> truthyString (link p) = true).
Proof.
  intros Hprops Hv. unfold render. rewrite Hv, Hprops. cbn.
  eexists. split; [reflexivity|]. cbn. split; [|split; [|split]].
  - destruct (appearance p), (type p); reflexivity.
  - intros name colour. destruct (icon p) as [n|]; [|discriminate].
    destruct (bool_decide (n = EmptyString)) eqn:E; cbn; [discriminate|].
    intros [= <- <-]. apply bool_decide_eq_false in E.
    repeat split; [exact E|].
    destruct (appearance p) as [[]|], (type p) as [[]|]; cbn; eauto.
  - destruct (dismissible p) as [[|]|]; cbn; split; congruence.
  - destruct (truthyString (link p)) eqn:E; split; try congruence.
    + intros _. destruct (link p); [eauto|discriminate].
    + intros [x Hx]. discriminate.
Qed.

Lemma visible_alert_rendering_witness :
  exists element,
    render (lifetime timedAlertProps []) = Some element
    /\ elementAppearance element = Some warning
    /\ closeButton element = true.
Proof.
  destruct (visible_alert_rendering timedAlertProps (lifetime timedAlertProps [])
              eq_refl eq_refl) as (element & Hr & Ha & _ & Hclose & _).
  exists element. split; [exact Hr|]. split; [exact Ha|].
  destruct (closeButton element) eqn:E; [reflexivity|].
  discriminate (proj1 Hclose eq_refl).
Defined.

End AlertTimer.
